(** * The rule engine of [main.py]: regions of interest, the Car-And-Person
    rule, the notification gate and the per-frame loop.

    The Python classes [RuleEngine], [CAP] and (the event loop of) [Render]
    are embedded as state-passing functions in a state-and-exception monad.
    Class attributes that are mutated in place ([_rois], [_objects_in_rois])
    live in a class-level record that every instance shares; attributes
    that an instance rebinds ([_last_positive_frame], [_count], the Slack
    client and channel) live in the instance, with the class default
    showing through while the instance has no binding of its own. *)

From Stdlib Require Import ZArith.
From stdpp Require Import base numbers option list sorting gmap strings.

Local Open Scope Z_scope.

(** ** Exceptions and results *)

(** The exceptions the engine can meet.  [SlackApiError] carries the value
    of [e.response["error"]]; [OtherError] stands for an exception of any
    class the source never names (a transport error of the Slack client,
    for instance). *)
Inductive exn : Type :=
  | KeyError (key : string)
  | IndexError
  | SlackApiError (error : option string)
  | AssertionError
  | OtherError (name : string).

Inductive result (A : Type) : Type :=
  | Return (a : A)
  | Raise (e : exn).
Arguments Return {A} a.
Arguments Raise {A} e.

(** ** The geometry collaborator (shapely) *)

(** [Polygon(coords)], [polygon.centroid] and [polygon.intersects(point)]
    are shapely's; the engine only calls them. *)
Class Geometry : Type := {
  Polygon : Type;
  Point : Type;
  Polygon_of : list (Z * Z) → Polygon;
  centroid : Polygon → Point;
  intersects : Polygon → Point → bool;
}.

(** An instance for the examples: polygons are vertex lists, read as the
    axis-parallel rectangle spanned by their vertices; a point carries
    doubled coordinates, so that the centre of a rectangle with integer
    corners is integral.  On axis-parallel rectangles this agrees with
    shapely (the boundary counts as intersecting). *)
Module Rect.
Definition xs (p : list (Z * Z)) : list Z := fst <$> p.
Definition ys (p : list (Z * Z)) : list Z := snd <$> p.
Definition lo (l : list Z) : Z := foldr Z.min (default 0 (head l)) l.
Definition hi (l : list Z) : Z := foldr Z.max (default 0 (head l)) l.
Definition centre2 (p : list (Z * Z)) : Z * Z :=
  (lo (xs p) + hi (xs p), lo (ys p) + hi (ys p)).
Definition covers2 (p : list (Z * Z)) (pt : Z * Z) : bool :=
  (2 * lo (xs p) <=? pt.1) && (pt.1 <=? 2 * hi (xs p)) &&
  (2 * lo (ys p) <=? pt.2) && (pt.2 <=? 2 * hi (ys p)).
Definition rect (x0 y0 x1 y1 : Z) : list (Z * Z) :=
  [(x0, y0); (x1, y0); (x1, y1); (x0, y1)].
End Rect.

#[export] Instance rect_geometry : Geometry := {|
  Polygon := list (Z * Z);
  Point := Z * Z;
  Polygon_of := λ coords, coords;
  centroid := Rect.centre2;
  intersects := Rect.covers2;
|}.

(** ** The Slack collaborator *)

Record WebClient : Type := { token : string }.

(** The arguments [notify] formats into the posted text. *)
Record Message : Type := {
  msg_channel : string;
  msg_rule_name : string;
  msg_timestamp : Z;
  msg_cam_name : string;
}.

(** What the client has been asked to post so far, and what the next calls
    of [chat_postMessage] will do: [None] accepts the message, [Some e]
    raises [e].  When the script is used up every call is accepted. *)
Record Slack : Type := {
  posted : list Message;
  outcomes : list (option exn);
}.

(** ** Engine state *)

Section Engine.
Context {geometry : Geometry}.

(** The class attributes of [RuleEngine] that the code mutates in place or
    reads as configuration.  [_maximum_allowed_diff] is [1] in the source. *)
Record RuleEngineClass : Type := {
  _objects_in_rois : list (gmap string bool);
  _rois : list Polygon;
  _maximum_allowed_diff : Z;
}.

(** The attribute dictionary of one instance; [None] is "not bound on the
    instance", in which case the class attribute is read. *)
Record Instance : Type := {
  own_last_positive_frame : option Z;
  own_count : option Z;
  own_slack_client : option WebClient;
  own_slack_channel : option string;
}.

Record State : Type := {
  cls : RuleEngineClass;
  self : Instance;
  slack : Slack;
}.

(** The class body at import time. *)
Definition RuleEngine_class : RuleEngineClass :=
  {| _objects_in_rois := []; _rois := []; _maximum_allowed_diff := 1 |}.

(** Attribute reads, class defaults [_last_positive_frame = 0],
    [_count = 0], [__slack_client = None]. *)
Definition _last_positive_frame (s : State) : Z :=
  default 0 (own_last_positive_frame (self s)).
Definition _count (s : State) : Z := default 0 (own_count (self s)).
Definition slack_client (s : State) : option WebClient :=
  own_slack_client (self s).
(** No instance ever binds [_rois] or [_objects_in_rois]: [self._rois]
    is the class attribute, whichever instance reads it. *)
Definition self_rois (c : RuleEngineClass) (i : Instance) : list Polygon :=
  _rois c.
Definition self_objects_in_rois (c : RuleEngineClass) (i : Instance)
  : list (gmap string bool) := _objects_in_rois c.

(** Attribute writes. *)
Definition set_objects_in_rois (o : list (gmap string bool)) (s : State)
  : State :=
  {| cls := {| _objects_in_rois := o; _rois := _rois (cls s);
               _maximum_allowed_diff := _maximum_allowed_diff (cls s) |};
     self := self s; slack := slack s |}.
Definition set_last_positive_frame (f : Z) (s : State) : State :=
  {| cls := cls s;
     self := {| own_last_positive_frame := Some f;
                own_count := own_count (self s);
                own_slack_client := own_slack_client (self s);
                own_slack_channel := own_slack_channel (self s) |};
     slack := slack s |}.
Definition set_count (n : Z) (s : State) : State :=
  {| cls := cls s;
     self := {| own_last_positive_frame := own_last_positive_frame (self s);
                own_count := Some n;
                own_slack_client := own_slack_client (self s);
                own_slack_channel := own_slack_channel (self s) |};
     slack := slack s |}.
Definition set_slack (k : Slack) (s : State) : State :=
  {| cls := cls s; self := self s; slack := k |}.

(** ** The monad: state that survives an exception *)

Definition M (A : Type) : Type := State → result A * State.

#[export] Instance M_ret : MRet M := λ A a s, (Return a, s).
#[export] Instance M_bind : MBind M := λ A B k m s,
  match m s with
  | (Return a, s') => k a s'
  | (Raise e, s') => (Raise e, s')
  end.
Definition raise {A : Type} (e : exn) : M A := λ s, (Raise e, s).
(** [try: m except SlackApiError as e: h e]. *)
Definition try_except_SlackApiError {A : Type} (m : M A)
    (h : option string → M A) : M A := λ s,
  match m s with
  | (Raise (SlackApiError err), s') => h err s'
  | r => r
  end.

(** Truth value of a string, and of an optional one ([None] is falsy). *)
Definition truthy (v : string) : bool := negb (String.eqb v "").
Definition truthy_opt (v : option string) : bool :=
  match v with Some v => truthy v | None => false end.

(** ** RuleEngine *)

Definition fresh_presence : gmap string bool :=
  <["car" := false]> (<["person" := false]> (<["truck" := false]> ∅)).

(** [load_dotenv()]: variables of the [.env] file are added to the process
    environment, those already set win. *)
Definition load_dotenv (dotenv environ : gmap string string)
  : gmap string string := environ ∪ dotenv.

(** The [for roi in rois] loop of [__init__]. *)
Definition append_roi (c : RuleEngineClass) (roi : list (Z * Z))
  : RuleEngineClass :=
  {| _objects_in_rois := _objects_in_rois c ++ [fresh_presence];
     _rois := _rois c ++ [Polygon_of roi];
     _maximum_allowed_diff := _maximum_allowed_diff c |}.

(** [RuleEngine.__init__(self, rois)], on the class state and the process
    environment; [CAP] and [Render] reach it through [super().__init__].
    The new object binds the client only when [SLACK_TOKEN] is set and not
    empty.  The appends have happened when the lookup of [SLACK_CHANNEL]
    raises. *)
Definition RuleEngine_init (rois : list (list (Z * Z)))
    (dotenv : gmap string string)
    (c : RuleEngineClass) (environ : gmap string string)
  : result Instance * RuleEngineClass * gmap string string :=
  let c := foldl append_roi c rois in
  let environ := load_dotenv dotenv environ in
  let client :=
    match environ !! "SLACK_TOKEN" with
    | Some t => if truthy t then Some {| token := t |} else None
    | None => None
    end in
  match environ !! "SLACK_CHANNEL" with
  | Some ch =>
      (Return {| own_last_positive_frame := None; own_count := None;
                 own_slack_client := client;
                 own_slack_channel := Some ch |}, c, environ)
  | None => (Raise (KeyError "SLACK_CHANNEL"), c, environ)
  end.

(** [reset_objects]: [for index in range(len(...)): ...[index] = {...}]. *)
Definition reset_objects : M () := λ s,
  (Return (),
   set_objects_in_rois
     (foldl (λ o index, <[index := fresh_presence]> o)
            (_objects_in_rois (cls s))
            (seq 0 (length (_objects_in_rois (cls s))))) s).

Definition should_notify (current_frame : Z) : M bool := λ s,
  let res := bool_decide (slack_client s ≠ None) &&
             (_maximum_allowed_diff (cls s) <?
                current_frame - _last_positive_frame s) in
  (Return res, set_last_positive_frame current_frame s).

(** [self.__slack_client.chat_postMessage(...)]. *)
Definition chat_postMessage (m : Message) : M () := λ s,
  let k := slack s in
  let s' := set_slack {| posted := posted k ++ [m];
                         outcomes := tail (outcomes k) |} s in
  match outcomes k with
  | Some e :: _ => (Raise e, s')
  | _ => (Return (), s')
  end.

(** [notify]: the readable time (lines 116 to 133) only shapes the text
    and is left out.  Its float arithmetic starts with [timestamp / 1e9],
    which Python refuses with [OverflowError] for an integer no float can
    hold; the model covers the timestamps a float can hold. *)
Definition notify (timestamp : Z) (rule_name cam_name : string) : M () := λ s,
  match slack_client s with
  | None => (Return (), s)
  | Some _ =>
      try_except_SlackApiError
        (chat_postMessage
           {| msg_channel := default "" (own_slack_channel (self s));
              msg_rule_name := rule_name; msg_timestamp := timestamp;
              msg_cam_name := cam_name |})
        (λ err, if truthy_opt err then mret () else raise AssertionError) s
  end.

(** ** CAP *)

Definition rule_name : string := "Car and Person".

(** [self._objects_in_rois[index][obj_class] = True]. *)
Definition mark (index : nat) (obj_class : string) : M () := λ s,
  match _objects_in_rois (cls s) !! index with
  | Some d =>
      (Return (),
       set_objects_in_rois
         (<[index := <[obj_class := true]> d]> (_objects_in_rois (cls s))) s)
  | None => (Raise IndexError, s)
  end.

(** [self._objects_in_rois[index][key]]. *)
Definition observed (index : nat) (key : string) : M bool := λ s,
  match _objects_in_rois (cls s) !! index with
  | Some d =>
      match d !! key with
      | Some b => (Return b, s)
      | None => (Raise (KeyError key), s)
      end
  | None => (Raise IndexError, s)
  end.

(** [self._count += 1]. *)
Definition incr_count : M () := λ s, (Return (), set_count (_count s + 1) s).

(** The body of the [if roi.intersects(object.centroid)] branch for the
    region at [index]: [return index] on a positive rule, otherwise
    [break], after which [execute] returns [-1]. *)
Definition execute_at (index : nat) (obj_class : string) (frame_num : Z)
    (cam_name : string) (timestamp : Z) : M Z :=
  mark index obj_class ;;
  car ← observed index "car";
  both ← (if car : bool then observed index "person" else (mret false : M bool));
  if both : bool then
    (incr_count ;;
     go ← should_notify frame_num;
     (if go : bool then notify timestamp rule_name cam_name else (mret () : M ())) ;;
     mret (Z.of_nat index) : M Z)
  else mret (-1).

(** [for index, roi in enumerate(self._rois)]. *)
Fixpoint execute_loop (object : Polygon) (obj_class : string) (frame_num : Z)
    (cam_name : string) (timestamp : Z) (rois : list Polygon) (index : nat)
  : M Z :=
  match rois with
  | [] => mret (-1)
  | roi :: rest =>
      if intersects roi (centroid object)
      then execute_at index obj_class frame_num cam_name timestamp
      else execute_loop object obj_class frame_num cam_name timestamp
             rest (S index)
  end.

Definition execute (object : Polygon) (obj_class : string) (frame_num : Z)
    (cam_name : string) (timestamp : Z) : M Z := λ s,
  execute_loop object obj_class frame_num cam_name timestamp
    (_rois (cls s)) 0 s.

(** ** Render: the event loop *)

Record Detection : Type := { det_class : string; det_object : Polygon }.

Record Frame : Type := {
  frame_num_of : Z;
  timestamp_of : Z;
  detections : list Detection;
}.

(** The keys of [Render.__colors]; [__add_polygon] and [__add_dot] look the
    class of the detection up there. *)
Definition colors : list string := ["person"; "car"; "truck"; "alert"; "other"].
Definition color_of (obj_class : string) : M () :=
  if bool_decide (obj_class ∈ colors) then mret ()
  else raise (KeyError obj_class).

(** [for detection in frame["detections"]]: the set [alerts] collects what
    [execute] returned. *)
Fixpoint render_detections (cam_name : string) (frame_num timestamp : Z)
    (dets : list Detection) (alerts : gset Z) : M (gset Z) :=
  match dets with
  | [] => mret alerts
  | d :: rest =>
      r ← execute (det_object d) (det_class d) frame_num cam_name timestamp;
      color_of (det_class d) ;;
      color_of (det_class d) ;;
      render_detections cam_name frame_num timestamp rest ({[r]} ∪ alerts)
  end.

(** One turn of [for frame in self.frames], as far as the engine goes:
    the detections, then [reset_objects].  The image, the drawing calls and
    the video writer (numpy, cv2, and the module globals [height] and
    [width] they read) are not part of the model; drawing the regions, the
    border and the frame number uses the colours "alert" and "other"
    only. *)
Definition render_frame (cam_name : string) (frame : Frame) : M (gset Z) :=
  alerts ← render_detections cam_name (frame_num_of frame)
             (timestamp_of frame) (detections frame) ∅;
  reset_objects ;;
  (mret alerts : M (gset Z)).

Fixpoint render (cam_name : string) (frames : list Frame) : M () :=
  match frames with
  | [] => mret ()
  | frame :: rest => render_frame cam_name frame ;; render cam_name rest
  end.

(** ** Derived notions used by the statements *)

(** The first region, in configured order from [index] on, that contains
    the point. *)
Fixpoint region_of (pt : Point) (rois : list Polygon) (index : nat)
  : option nat :=
  match rois with
  | [] => None
  | roi :: rest =>
      if intersects roi pt then Some index else region_of pt rest (S index)
  end.

Definition tracked : gset string := {["car"; "person"; "truck"]}.

(** Every presence map has at least the tracked classes as keys, and there
    is one map per region. *)
Definition keys_cover (c : RuleEngineClass) : Prop :=
  length (_objects_in_rois c) = length (_rois c) ∧
  Forall (λ d : gmap string bool, tracked ⊆ dom d) (_objects_in_rois c).

Definition keys_exact (c : RuleEngineClass) : Prop :=
  length (_objects_in_rois c) = length (_rois c) ∧
  Forall (λ d : gmap string bool, dom d = tracked) (_objects_in_rois c).

(** The rule of [CAP] on a presence map. *)
Definition car_and_person (d : gmap string bool) : bool :=
  bool_decide (d !! "car" = Some true) &&
  bool_decide (d !! "person" = Some true).

(** What [notify] returns for each scripted outcome of the post: only a
    [SlackApiError] is caught, and then [e.response["error"]] is asserted. *)
Definition notify_result (o : option (option exn)) : result () :=
  match o with
  | Some (Some (SlackApiError err)) =>
      if truthy_opt err then Return () else Raise AssertionError
  | Some (Some e) => Raise e
  | _ => Return ()
  end.

(** The state after the presence of [obj_class] was recorded in region
    [i], whose map was [d]. *)
Definition marked (i : nat) (obj_class : string) (d : gmap string bool)
    (s : State) : State :=
  set_objects_in_rois
    (<[i := <[obj_class := true]> d]> (_objects_in_rois (cls s))) s.

(** The state after the rule counted a positive and the gate was asked. *)
Definition counted (frame_num : Z) (s : State) : State :=
  set_last_positive_frame frame_num (set_count (_count s + 1) s).

(** The state after [notify] handed a message to the client. *)
Definition handed (timestamp : Z) (cam_name : string) (s : State) : State :=
  set_slack
    {| posted := posted (slack s) ++
         [{| msg_channel := default "" (own_slack_channel (self s));
             msg_rule_name := rule_name; msg_timestamp := timestamp;
             msg_cam_name := cam_name |}];
       outcomes := tail (outcomes (slack s)) |} s.

(** How a run of evaluations that all carry frame number [f] can move the
    gate and the Slack log from [s] to [s']: either nothing was posted (and
    a gate already standing at [f] still stands there), or exactly one
    message was posted, the gate did not stand at [f] before and does now. *)
Definition gate_step (f : Z) (s s' : State) : Prop :=
  _maximum_allowed_diff (cls s') = _maximum_allowed_diff (cls s) ∧
  ((posted (slack s') = posted (slack s) ∧
    (_last_positive_frame s = f → _last_positive_frame s' = f)) ∨
   (_last_positive_frame s' = f ∧ _last_positive_frame s ≠ f ∧
    ∃ m, posted (slack s') = posted (slack s) ++ [m])).

(** A driver for the gate: one call of [should_notify] per frame number,
    in order, collecting the answers. *)
Fixpoint should_notify_all (frames : list Z) : M (list bool) :=
  match frames with
  | [] => mret []
  | f :: rest =>
      b ← should_notify f;
      bs ← should_notify_all rest;
      mret (b :: bs)
  end.

(** ** The overlay drawn by [render] *)

(** [for index, roi in enumerate(self._rois)] of [render]: the colour each
    region is drawn in, and [indicator], set once a region is drawn in the
    alert colour. *)
Fixpoint draw_rois_loop (alerts : gset Z) (rois : list Polygon) (index : nat)
    (indicator : bool) (drawn : list (Polygon * string))
  : bool * list (Polygon * string) :=
  match rois with
  | [] => (indicator, drawn)
  | roi :: rest =>
      if bool_decide (Z.of_nat index ∈ alerts)
      then draw_rois_loop alerts rest (S index) true (drawn ++ [(roi, "alert")])
      else draw_rois_loop alerts rest (S index) indicator
             (drawn ++ [(roi, "other")])
  end.

Definition draw_rois (alerts : gset Z) (rois : list Polygon)
  : bool * list (Polygon * string) :=
  draw_rois_loop alerts rois 0 false [].

(** [color = "alert" if indicator else "other"], the colour of the border. *)
Definition border_color (indicator : bool) : string :=
  if indicator then "alert" else "other".

(** ** Further notions used by the statements *)

(** Some detection of [dets] has class [c] and is attributed to region
    [i]. *)
Definition seen_in (rois : list Polygon) (dets : list Detection) (i : nat)
    (c : string) : Prop :=
  ∃ det, det ∈ dets ∧ det_class det = c ∧
         region_of (centroid (det_object det)) rois 0 = Some i.

(** Every frame number of the series is within [thr] of the one before it,
    [prev] being the one before the first. *)
Fixpoint close_frames (thr prev : Z) (frames : list Z) : Prop :=
  match frames with
  | [] => True
  | f :: rest => f - prev ≤ thr ∧ close_frames thr f rest
  end.

(** The presence maps after class [c] was recorded in region [i]; an index
    without map leaves them alone. *)
Definition recorded (i : nat) (c : string) (maps : list (gmap string bool))
  : list (gmap string bool) :=
  match maps !! i with
  | Some d => <[i := <[c := true]> d]> maps
  | None => maps
  end.


(** From [s] to [s'] no presence map lost a key. *)
Definition keys_kept (s s' : State) : Prop :=
  ∀ j d, _objects_in_rois (cls s) !! j = Some d →
    ∃ d', _objects_in_rois (cls s') !! j = Some d' ∧ dom d ⊆ dom d'.


(** What a run of the engine for camera [cam_name] keeps and what it may
    do, from [s] to [s']: the configuration stays; messages are appended to
    the Slack log, each paid for by one unit of [_count], and the scripted
    outcomes are used up from the front. *)
Definition evolves (cam_name : string) (stamps : Z → Prop) (s s' : State)
  : Prop :=
  _rois (cls s') = _rois (cls s) ∧
  _maximum_allowed_diff (cls s') = _maximum_allowed_diff (cls s) ∧
  own_slack_client (self s') = own_slack_client (self s) ∧
  own_slack_channel (self s') = own_slack_channel (self s) ∧
  length (_objects_in_rois (cls s')) = length (_objects_in_rois (cls s)) ∧
  ∃ new used,
    posted (slack s') = posted (slack s) ++ new ∧
    outcomes (slack s) = used ++ outcomes (slack s') ∧
    Z.of_nat (length new) ≤ _count s' - _count s ∧
    Forall (λ m, msg_channel m = default "" (own_slack_channel (self s)) ∧
                 msg_rule_name m = rule_name ∧
                 msg_cam_name m = cam_name ∧
                 stamps (msg_timestamp m)) new.


End Engine.

(** ** Concrete data for the examples *)

Module Example.
(** Two overlapping regions: region 0 is the square from (0,0) to
    (10,10), region 1 the square from (5,5) to (15,15). *)
Definition rois : list (list (Z * Z)) :=
  [Rect.rect 0 0 10 10; Rect.rect 5 5 15 15].

(** Bounding boxes with centroid (2,2) and (3,3), in region 0 only; with
    centroid (7,7), in both regions; with centroid (21,21), in none. *)
Definition box_a : @Polygon rect_geometry := Rect.rect 1 1 3 3.
Definition box_b : @Polygon rect_geometry := Rect.rect 2 2 4 4.
Definition box_overlap : @Polygon rect_geometry := Rect.rect 6 6 8 8.
Definition box_outside : @Polygon rect_geometry := Rect.rect 20 20 22 22.

Definition environ_none : gmap string string := ∅.
Definition environ_channel_only : gmap string string :=
  <["SLACK_CHANNEL" := "alerts"]> ∅.
Definition environ_token_only : gmap string string :=
  <["SLACK_TOKEN" := "xoxb-1"]> ∅.
Definition environ_full : gmap string string :=
  <["SLACK_TOKEN" := "xoxb-1"]> (<["SLACK_CHANNEL" := "alerts"]> ∅).

(** The class after one engine was built on [rois]. *)
Definition class1 : RuleEngineClass :=
  {| _objects_in_rois := [fresh_presence; fresh_presence];
     _rois := rois; _maximum_allowed_diff := 1 |}.

(** An engine with a Slack client, and one without. *)
Definition engine_on : Instance :=
  {| own_last_positive_frame := None; own_count := None;
     own_slack_client := Some {| token := "xoxb-1" |};
     own_slack_channel := Some "alerts" |}.
Definition engine_off : Instance :=
  {| own_last_positive_frame := None; own_count := None;
     own_slack_client := None; own_slack_channel := Some "alerts" |}.

(** A Slack workspace whose next calls behave as scripted. *)
Definition slack_with (script : list (option exn)) : Slack :=
  {| posted := []; outcomes := script |}.

Definition start (script : list (option exn)) : State :=
  {| cls := class1; self := engine_on; slack := slack_with script |}.
Definition start_off : State :=
  {| cls := class1; self := engine_off; slack := slack_with [] |}.

(** [start], with a car already seen in region 0 during this frame. *)
Definition car_seen (script : list (option exn)) : State :=
  set_objects_in_rois
    [<["car" := true]> fresh_presence; fresh_presence] (start script).

Definition alert (ts : Z) : Message :=
  {| msg_channel := "alerts"; msg_rule_name := rule_name;
     msg_timestamp := ts; msg_cam_name := "cam" |}.

(** Frame 5 shows a car and a person in region 0, frame 6 a car only. *)
Definition frame5 : Frame :=
  {| frame_num_of := 5; timestamp_of := 500;
     detections := [ {| det_class := "car"; det_object := box_a |};
                     {| det_class := "person"; det_object := box_b |} ] |}.
Definition frame6 : Frame :=
  {| frame_num_of := 6; timestamp_of := 600;
     detections := [ {| det_class := "car"; det_object := box_a |} ] |}.
(** A second batch with frame number 5. *)
Definition frame5_again : Frame :=
  {| frame_num_of := 5; timestamp_of := 550;
     detections := [ {| det_class := "person"; det_object := box_a |};
                     {| det_class := "car"; det_object := box_b |};
                     {| det_class := "car"; det_object := box_a |} ] |}.


(** An engine whose next message Slack refuses with an error text. *)
Definition refused : State :=
  car_seen [Some (SlackApiError (Some "channel_not_found"))].

(** The values [execute] returns for [frame5]: [-1] for the car, [0] for
    the person. *)
Definition alerts5 : gset Z := {[ 0 ]} ∪ ({[ (-1) ]} ∪ ∅).


(** Three batches whose frame numbers go 10, 5, 10, each with a car and
    a person in region 0. *)
Definition frame10 : Frame :=
  {| frame_num_of := 10; timestamp_of := 1000;
     detections := [ {| det_class := "car"; det_object := box_a |};
                     {| det_class := "person"; det_object := box_b |} ] |}.
Definition frame10_again : Frame :=
  {| frame_num_of := 10; timestamp_of := 1100;
     detections := [ {| det_class := "car"; det_object := box_a |};
                     {| det_class := "person"; det_object := box_b |} ] |}.

End Example.

(** * Properties *)

Section Properties.
Context {geometry : Geometry}.

Implicit Types (s : State) (d : gmap string bool) (i j index : nat).

(** Unfolds the sequencing of the monad. *)
Ltac run := unfold mbind, M_bind, mret, M_ret, raise in *; simpl in *.

(** ** Containment resolution *)

Lemma region_of_ge pt rois k i : region_of pt rois k = Some i → (k ≤ i)%nat.
Proof.
  revert k. induction rois as [|roi rest IH]; intros k; simpl; [done|].
  destruct (intersects roi pt).
  - intros [= <-]. lia.
  - intros Hr. apply IH in Hr. lia.
Qed.

(** [region_of] finds the first region, in list order, that contains the
    point. *)
Lemma region_of_Some pt rois i :
  region_of pt rois 0 = Some i ↔
  ∃ roi, rois !! i = Some roi ∧ intersects roi pt = true ∧
         ∀ j r, (j < i)%nat → rois !! j = Some r → intersects r pt = false.
Proof.
  assert (G : ∀ k, region_of pt rois k = Some (k + i)%nat ↔
    ∃ roi, rois !! i = Some roi ∧ intersects roi pt = true ∧
      ∀ j r, (j < i)%nat → rois !! j = Some r → intersects r pt = false);
    [|apply (G 0%nat)].
  revert i. induction rois as [|roi rest IH]; intros i k; simpl.
  { split; [done|]. by intros (roi & Hl & _). }
  destruct (intersects roi pt) eqn:Hin.
  - split.
    + intros [= Hk]. assert (i = 0%nat) as -> by lia.
      exists roi. split_and!; [done..|]. intros; lia.
    + intros (roi' & Hl & Hin' & Hfirst). destruct i as [|i].
      * f_equal; lia.
      * specialize (Hfirst 0%nat roi). simpl in Hfirst.
        rewrite Hfirst in Hin; [done|lia|done].
  - destruct i as [|i].
    + split.
      * intros Hr. apply region_of_ge in Hr. lia.
      * intros (roi' & [= <-] & Hin' & _). congruence.
    + replace (k + S i)%nat with (S k + i)%nat by lia. rewrite IH.
      split; intros (roi' & Hl & Hin' & Hfirst); exists roi';
        (split_and!; [done..|]).
      * intros [|j] r Hj Hr; simpl in Hr; [congruence|].
        apply (Hfirst j); [lia|done].
      * intros j r Hj Hr. apply (Hfirst (S j)); [lia|done].
Qed.

Lemma region_of_None pt rois k :
  region_of pt rois k = None ↔ Forall (λ roi, intersects roi pt = false) rois.
Proof.
  revert k. induction rois as [|roi rest IH]; intros k; simpl.
  { split; [constructor|done]. }
  destruct (intersects roi pt) eqn:Hin.
  - split; [done|]. intros Hf. apply Forall_cons in Hf as [Hf _]. congruence.
  - rewrite IH. split; [by constructor|]. by intros [_ ?]%Forall_cons.
Qed.

(** The loop of [execute] runs the body for the first containing region
    and for no other. *)
Lemma execute_loop_region object obj_class frame_num cam_name timestamp
    rois k s :
  execute_loop object obj_class frame_num cam_name timestamp rois k s =
  match region_of (centroid object) rois k with
  | Some i => execute_at i obj_class frame_num cam_name timestamp s
  | None => (Return (-1), s)
  end.
Proof.
  revert k. induction rois as [|roi rest IH]; intros k; simpl; [done|].
  destruct (intersects roi (centroid object)); [done|]. apply IH.
Qed.

Lemma execute_region object obj_class frame_num cam_name timestamp s :
  execute object obj_class frame_num cam_name timestamp s =
  match region_of (centroid object) (_rois (cls s)) 0 with
  | Some i => execute_at i obj_class frame_num cam_name timestamp s
  | None => (Return (-1), s)
  end.
Proof. apply execute_loop_region. Qed.

(** ** The notifier *)

Lemma notify_eq timestamp cam s :
  notify timestamp rule_name cam s =
  match slack_client s with
  | None => (Return (), s)
  | Some _ => (notify_result (head (outcomes (slack s))), handed timestamp cam s)
  end.
Proof.
  unfold notify. destruct (slack_client s); [|done].
  unfold try_except_SlackApiError, chat_postMessage, handed.
  destruct (outcomes (slack s)) as [|[e|] q]; simpl; [done| |done].
  destruct e as [| |err| |]; simpl; try done.
  destruct (truthy_opt err); done.
Qed.

(** ** The body of [execute] for one region *)

Lemma execute_at_eq i obj_class frame_num cam timestamp s :
  execute_at i obj_class frame_num cam timestamp s =
  match _objects_in_rois (cls s) !! i with
  | None => (Raise IndexError, s)
  | Some d =>
      let d' := <[obj_class := true]> d in
      let s1 := marked i obj_class d s in
      match d' !! "car" with
      | None => (Raise (KeyError "car"), s1)
      | Some false => (Return (-1), s1)
      | Some true =>
          match d' !! "person" with
          | None => (Raise (KeyError "person"), s1)
          | Some false => (Return (-1), s1)
          | Some true =>
              let s3 := counted frame_num s1 in
              if bool_decide (slack_client s ≠ None) &&
                 (_maximum_allowed_diff (cls s) <?
                    frame_num - _last_positive_frame s)
              then
                match notify timestamp rule_name cam s3 with
                | (Return _, s4) => (Return (Z.of_nat i), s4)
                | (Raise e, s4) => (Raise e, s4)
                end
              else (Return (Z.of_nat i), s3)
          end
      end
  end.
Proof.
  unfold execute_at, mark. run.
  destruct (_objects_in_rois (cls s) !! i) as [d|] eqn:Hd; [|done].
  assert (Hlt : (i < length (_objects_in_rois (cls s)))%nat)
    by (by eapply lookup_lt_Some).
  unfold observed; simpl. rewrite list_lookup_insert_eq by done.
  destruct (<[obj_class:=true]> d !! "car") as [[]|]; simpl; try done.
  rewrite list_lookup_insert_eq by done.
  destruct (<[obj_class:=true]> d !! "person") as [[]|]; simpl; try done.
  unfold should_notify, slack_client, _last_positive_frame; simpl.
  destruct (bool_decide _ && _); simpl; [|done].
  unfold marked, counted. simpl.
  match goal with |- context [notify ?a ?b ?c ?st] =>
    destruct (notify a b c st) as [[]?] end; done.
Qed.

(** ** The notification gate *)

Lemma should_notify_eq current_frame s :
  should_notify current_frame s =
  (Return (bool_decide (slack_client s ≠ None) &&
           (_maximum_allowed_diff (cls s) <?
              current_frame - _last_positive_frame s)),
   set_last_positive_frame current_frame s).
Proof. done. Qed.

(** C1: [should_notify(current_frame)] returns true exactly when a Slack
    client is configured and [current_frame - _last_positive_frame] exceeds
    [_maximum_allowed_diff]; whatever it returns, it leaves
    [_last_positive_frame = current_frame] and nothing else changed.  From
    the initial [_last_positive_frame = 0] with threshold 1 and a client,
    the calls at frames 10, 11, 12, 20 answer true, false, false, true. *)
Theorem should_notify_gate s current_frame :
  let r := should_notify current_frame s in
  (r.1 = Return true ↔
     slack_client s ≠ None ∧
     current_frame - _last_positive_frame s > _maximum_allowed_diff (cls s)) ∧
  (r.1 = Return true ∨ r.1 = Return false) ∧
  _last_positive_frame r.2 = current_frame ∧
  r.2 = set_last_positive_frame current_frame s ∧
  (slack_client s ≠ None →
   _maximum_allowed_diff (cls s) = 1 →
   own_last_positive_frame (self s) = None →
   (should_notify_all [10; 11; 12; 20] s).1 =
     Return [true; false; false; true]).
Proof.
  intros r. subst r. rewrite should_notify_eq. simpl. split_and!.
  - split.
    + intros [= Hb]. apply andb_prop in Hb as [Hc Hd].
      apply bool_decide_eq_true in Hc. apply Z.ltb_lt in Hd. split; [done|lia].
    + intros [Hc Hd]. f_equal. apply andb_true_intro. split.
      * by apply bool_decide_eq_true.
      * apply Z.ltb_lt. lia.
  - destruct (_ && _); auto.
  - done.
  - done.
  - intros Hc Hthr Hlast. run.
    unfold slack_client, _last_positive_frame in *. simpl.
    rewrite Hthr, Hlast. rewrite (bool_decide_eq_true_2 _ Hc). done.
Qed.

(** ** Detections outside every region *)

(** C7: a detection whose centroid lies in no configured region leaves the
    whole state as it was (presence maps, counter, gate, Slack) and
    [execute] returns [-1]. *)
Theorem execute_outside_regions object obj_class frame_num cam_name
    timestamp s :
  Forall (λ roi, intersects roi (centroid object) = false) (_rois (cls s)) →
  execute object obj_class frame_num cam_name timestamp s = (Return (-1), s).
Proof.
  intros Hout. rewrite execute_region.
  by apply (region_of_None _ _ 0%nat) in Hout as ->.
Qed.

(** ** First match wins *)

(** The presence maps after the body ran for region [i]: that region is
    marked, whatever happens next. *)
Lemma execute_at_objects i obj_class frame_num cam timestamp s :
  _objects_in_rois (cls (execute_at i obj_class frame_num cam timestamp s).2) =
  match _objects_in_rois (cls s) !! i with
  | Some d => <[i := <[obj_class := true]> d]> (_objects_in_rois (cls s))
  | None => _objects_in_rois (cls s)
  end.
Proof.
  rewrite execute_at_eq.
  destruct (_objects_in_rois (cls s) !! i) as [d|]; [|done]. simpl.
  destruct (<[obj_class:=true]> d !! "car") as [[]|]; try done.
  destruct (<[obj_class:=true]> d !! "person") as [[]|]; try done.
  destruct (bool_decide _ && _); [|done].
  rewrite notify_eq. unfold slack_client. simpl.
  by destruct (own_slack_client (self s)); [destruct (notify_result _)|].
Qed.

(** C3: a detection marks the presence map of at most one region, the
    first one in configured order that contains the centroid of its
    bounding box; a centroid in the overlap of regions 0 and 1 is recorded
    in region 0 and region 1 keeps its map. *)
Theorem execute_marks_first_region_only object obj_class frame_num cam_name
    timestamp s :
  let s' := (execute object obj_class frame_num cam_name timestamp s).2 in
  match region_of (centroid object) (_rois (cls s)) 0 with
  | Some i =>
      (∀ j, j ≠ i →
         _objects_in_rois (cls s') !! j = _objects_in_rois (cls s) !! j) ∧
      _objects_in_rois (cls s') !! i =
        (<[obj_class := true]>) <$> (_objects_in_rois (cls s) !! i)
  | None => _objects_in_rois (cls s') = _objects_in_rois (cls s)
  end ∧
  (∀ r0 r1,
     _rois (cls s) !! 0%nat = Some r0 → _rois (cls s) !! 1%nat = Some r1 →
     intersects r0 (centroid object) = true →
     intersects r1 (centroid object) = true →
     region_of (centroid object) (_rois (cls s)) 0 = Some 0%nat ∧
     _objects_in_rois (cls s') !! 0%nat =
       (<[obj_class := true]>) <$> (_objects_in_rois (cls s) !! 0%nat) ∧
     _objects_in_rois (cls s') !! 1%nat = _objects_in_rois (cls s) !! 1%nat).
Proof.
  intros s'.
  assert (Hmain :
    match region_of (centroid object) (_rois (cls s)) 0 with
    | Some i =>
        (∀ j, j ≠ i →
           _objects_in_rois (cls s') !! j = _objects_in_rois (cls s) !! j) ∧
        _objects_in_rois (cls s') !! i =
          (<[obj_class := true]>) <$> (_objects_in_rois (cls s) !! i)
    | None => _objects_in_rois (cls s') = _objects_in_rois (cls s)
    end).
  { subst s'. rewrite execute_region.
    destruct (region_of _ _ _) as [i|]; [|done].
    rewrite execute_at_objects.
    destruct (_objects_in_rois (cls s) !! i) as [d|] eqn:Hd; simpl.
    - split.
      + intros j Hne. by apply list_lookup_insert_ne.
      + apply list_lookup_insert_eq. by eapply lookup_lt_Some.
    - by rewrite Hd. }
  split; [exact Hmain|].
  intros r0 r1 H0 H1 Hin0 Hin1.
  assert (Hr : region_of (centroid object) (_rois (cls s)) 0 = Some 0%nat).
  { apply region_of_Some. exists r0. split_and!; [done..|]. intros; lia. }
  rewrite Hr in Hmain. destruct Hmain as [Hother Hthis].
  split_and!; [done..|]. by apply Hother.
Qed.

(** ** The presence-map invariant *)

Lemma keys_cover_region c pt i :
  keys_cover c → region_of pt (_rois c) 0 = Some i →
  ∃ d, _objects_in_rois c !! i = Some d ∧ tracked ⊆ dom d.
Proof.
  intros [Hlen Hkeys] (roi & Hroi & _)%region_of_Some.
  apply lookup_lt_Some in Hroi. rewrite <- Hlen in Hroi.
  apply lookup_lt_is_Some in Hroi as [d Hd]. exists d. split; [done|].
  by eapply Forall_lookup_1 in Hkeys.
Qed.

Lemma tracked_lookup d obj_class key :
  tracked ⊆ dom d → key ∈ tracked →
  ∃ b, <[obj_class := true]> d !! key = Some b.
Proof.
  intros Hsub Hkey. apply Hsub, elem_of_dom in Hkey as [b Hb].
  destruct (decide (obj_class = key)) as [->|Hne].
  - exists true. apply lookup_insert_eq.
  - exists b. by rewrite lookup_insert_ne.
Qed.

Lemma car_and_person_true d :
  car_and_person d = true ↔ d !! "car" = Some true ∧ d !! "person" = Some true.
Proof.
  unfold car_and_person. rewrite andb_true_iff, !bool_decide_eq_true. done.
Qed.

(** With the invariant, the body of [execute] for region [i] either finds
    the rule negative, or counts it and asks the gate; only the notifier
    can raise. *)
Lemma execute_at_cases i obj_class frame_num cam timestamp s d :
  _objects_in_rois (cls s) !! i = Some d → tracked ⊆ dom d →
  let s1 := marked i obj_class d s in
  execute_at i obj_class frame_num cam timestamp s =
  if car_and_person (<[obj_class := true]> d) then
    if bool_decide (slack_client s ≠ None) &&
       (_maximum_allowed_diff (cls s) <? frame_num - _last_positive_frame s)
    then
      (match notify_result (head (outcomes (slack s))) with
       | Return _ => Return (Z.of_nat i)
       | Raise e => Raise e
       end, handed timestamp cam (counted frame_num s1))
    else (Return (Z.of_nat i), counted frame_num s1)
  else (Return (-1), s1).
Proof.
  intros Hd Hkeys s1. rewrite execute_at_eq, Hd. simpl.
  destruct (tracked_lookup d obj_class "car" Hkeys) as [c Hc];
    [set_solver|].
  destruct (tracked_lookup d obj_class "person" Hkeys) as [p Hp];
    [set_solver|].
  unfold car_and_person. rewrite Hc, Hp.
  destruct c, p; try done. simpl.
  destruct (bool_decide (slack_client s ≠ None)) eqn:Hclient; simpl; [|done].
  destruct (_ <? _); [|done].
  rewrite notify_eq. apply bool_decide_eq_true in Hclient.
  unfold slack_client in *. simpl.
  destruct (own_slack_client (self s)); [|done].
  by destruct (notify_result _).
Qed.

(** ** The co-occurrence rule *)

(** C2: for a detection attributed to region [i] (the first configured
    region containing its centroid), the class is recorded in the presence
    map of [i] and the rule is positive exactly when that map then shows
    both "car" and "person".  A positive evaluation adds exactly one to
    [_count] and [execute] does not return [-1] (it returns [i], unless the
    notifier raises); a negative one leaves [_count] alone and returns
    [-1].  Nothing is remembered between detections except the presence
    flags, so every further car or person seen in the region while both
    flags are set counts again. *)
Theorem execute_rule_positive object obj_class frame_num cam_name timestamp
    s i :
  keys_cover (cls s) →
  region_of (centroid object) (_rois (cls s)) 0 = Some i →
  ∃ d, _objects_in_rois (cls s) !! i = Some d ∧
    let d' := <[obj_class := true]> d in
    let r := execute object obj_class frame_num cam_name timestamp s in
    _objects_in_rois (cls r.2) !! i = Some d' ∧
    (d !! "car" = Some true ∧ d !! "person" = Some true →
       d' !! "car" = Some true ∧ d' !! "person" = Some true) ∧
    (obj_class = "car" → d !! "person" = Some false →
       ¬ (d' !! "car" = Some true ∧ d' !! "person" = Some true)) ∧
    (d' !! "car" = Some true ∧ d' !! "person" = Some true →
       _count r.2 = _count s + 1 ∧ r.1 ≠ Return (-1) ∧
       (r.1 = Return (Z.of_nat i) ∨
        ∃ e, r.1 = Raise e ∧
             notify_result (head (outcomes (slack s))) = Raise e)) ∧
    (¬ (d' !! "car" = Some true ∧ d' !! "person" = Some true) →
       _count r.2 = _count s ∧ r.1 = Return (-1)).
Proof.
  intros Hinv Hregion.
  destruct (keys_cover_region _ _ _ Hinv Hregion) as (d & Hd & Hkeys).
  exists d. split; [done|]. intros d' r. subst r.
  rewrite execute_region, Hregion.
  split.
  { rewrite execute_at_objects, Hd. apply list_lookup_insert_eq.
    by eapply lookup_lt_Some. }
  split.
  { intros [Hcar Hperson]. subst d'.
    split; [destruct (decide (obj_class = "car")) as [->|]
           |destruct (decide (obj_class = "person")) as [->|]];
      by simplify_map_eq. }
  split.
  { intros -> Hperson [_ Hp]. subst d'.
    rewrite lookup_insert_ne in Hp by done. congruence. }
  rewrite (execute_at_cases _ _ _ _ _ _ d Hd Hkeys). fold d'.
  destruct (car_and_person d') eqn:Hrule.
  - split; [intros _|intros Hn; by apply car_and_person_true in Hrule].
    destruct (bool_decide _ && _); simpl.
    + destruct (notify_result _) as [[]|e] eqn:Hres; simpl.
      * split_and!; [done| |by left]. intros [=]; lia.
      * split_and!; [done..|]. right. by exists e.
    + split_and!; [done| |by left]. intros [=]; lia.
  - split; [|by intros _].
    intros Hboth%car_and_person_true. congruence.
Qed.

(** ** Reset *)

(** Overwriting the slots [length done], ..., [length done + length todo - 1]
    one after the other. *)
Lemma overwrite_from {A : Type} (x : A) (done_ todo : list A) :
  foldl (λ o index, <[index := x]> o) (done_ ++ todo)
        (seq (length done_) (length todo)) =
  done_ ++ replicate (length todo) x.
Proof.
  revert done_. induction todo as [|y todo IH]; intros done_; simpl; [done|].
  replace (<[length done_ := x]> (done_ ++ y :: todo))
    with ((done_ ++ [x]) ++ todo).
  - specialize (IH (done_ ++ [x])). rewrite length_app in IH. simpl in IH.
    replace (length done_ + 1)%nat with (S (length done_)) in IH by lia.
    rewrite IH. by rewrite <- app_assoc.
  - rewrite <- app_assoc. simpl. symmetry.
    rewrite insert_app_r_alt by lia.
    by replace (length done_ - length done_)%nat with 0%nat by lia.
Qed.

Lemma reset_objects_eq s :
  reset_objects s =
  (Return (),
   set_objects_in_rois
     (replicate (length (_objects_in_rois (cls s))) fresh_presence) s).
Proof.
  unfold reset_objects. do 2 f_equal.
  apply (overwrite_from fresh_presence [] (_objects_in_rois (cls s))).
Qed.

Lemma fresh_presence_lookup key :
  key ∈ tracked → fresh_presence !! key = Some false.
Proof.
  unfold tracked, fresh_presence. intros Hk.
  apply elem_of_union in Hk as [Hk|Hk%elem_of_singleton];
    [apply elem_of_union in Hk as [Hk%elem_of_singleton|Hk%elem_of_singleton]|];
    subst; by simplify_map_eq.
Qed.

Lemma fresh_presence_dom : dom fresh_presence = tracked.
Proof.
  unfold fresh_presence, tracked. rewrite !dom_insert_L, dom_empty_L.
  set_solver.
Qed.

(** C6: [reset_objects] returns normally and leaves one presence map per
    earlier map, each with "car", "person" and "truck" false, whatever the
    maps held before; regions, threshold, the instance (counter, gate) and
    Slack are untouched.  The event loop calls it at the end of every frame
    it completes, so such a frame leaves only cleared maps. *)
Theorem reset_objects_clears s :
  let r := reset_objects s in
  r.1 = Return () ∧
  length (_objects_in_rois (cls r.2)) = length (_objects_in_rois (cls s)) ∧
  (∀ i key, (i < length (_objects_in_rois (cls s)))%nat → key ∈ tracked →
     _objects_in_rois (cls r.2) !! i ≫= (.!! key) = Some false) ∧
  Forall (λ d, d = fresh_presence) (_objects_in_rois (cls r.2)) ∧
  _rois (cls r.2) = _rois (cls s) ∧
  _maximum_allowed_diff (cls r.2) = _maximum_allowed_diff (cls s) ∧
  self r.2 = self s ∧ slack r.2 = slack s ∧
  (∀ cam_name frame alerts s',
     render_frame cam_name frame s = (Return alerts, s') →
     Forall (λ d, d = fresh_presence) (_objects_in_rois (cls s'))).
Proof.
  intros r. subst r. rewrite reset_objects_eq. simpl. split_and!; try done.
  - apply length_replicate.
  - intros i key Hi Hkey. rewrite lookup_replicate_2 by done. simpl.
    by apply fresh_presence_lookup.
  - apply Forall_forall. by intros d [-> _]%elem_of_replicate.
  - intros cam_name frame alerts s' Hrun.
    unfold render_frame, mbind, M_bind in Hrun.
    destruct (render_detections _ _ _ _ _ s) as [[seen|e] s1]; [|done].
    rewrite reset_objects_eq in Hrun. injection Hrun as _ <-. simpl.
    apply Forall_forall. by intros d [-> _]%elem_of_replicate.
Qed.

(** ** Construction *)

Lemma append_rois c rois :
  _rois (foldl append_roi c rois) = _rois c ++ (Polygon_of <$> rois) ∧
  _objects_in_rois (foldl append_roi c rois) =
    _objects_in_rois c ++ replicate (length rois) fresh_presence ∧
  _maximum_allowed_diff (foldl append_roi c rois) = _maximum_allowed_diff c.
Proof.
  revert c. induction rois as [|roi rois IH]; intros c; simpl.
  { by rewrite !app_nil_r. }
  destruct (IH (append_roi c roi)) as (-> & -> & ->). simpl.
  by rewrite <- !app_assoc.
Qed.

(** [__init__] appends the regions in every case, and raises exactly when
    [SLACK_CHANNEL] is not set, with or without a token. *)
Lemma RuleEngine_init_class rois dotenv c environ :
  (RuleEngine_init rois dotenv c environ).1.2 = foldl append_roi c rois.
Proof.
  unfold RuleEngine_init. by destruct (load_dotenv dotenv environ !! _).
Qed.

Lemma RuleEngine_init_environ rois dotenv c environ :
  (RuleEngine_init rois dotenv c environ).2 = load_dotenv dotenv environ.
Proof.
  unfold RuleEngine_init. by destruct (load_dotenv dotenv environ !! _).
Qed.

Lemma RuleEngine_init_raises rois dotenv c environ :
  load_dotenv dotenv environ !! "SLACK_CHANNEL" = None ↔
  (RuleEngine_init rois dotenv c environ).1.1 = Raise (KeyError "SLACK_CHANNEL").
Proof.
  unfold RuleEngine_init.
  destruct (load_dotenv dotenv environ !! "SLACK_CHANNEL"); simpl; by split.
Qed.

Lemma RuleEngine_init_returns rois dotenv c environ ch :
  load_dotenv dotenv environ !! "SLACK_CHANNEL" = Some ch →
  ∃ e, (RuleEngine_init rois dotenv c environ).1.1 = Return e ∧
       own_slack_channel e = Some ch ∧
       own_last_positive_frame e = None ∧ own_count e = None.
Proof. unfold RuleEngine_init. intros ->. simpl. eauto. Qed.

Lemma load_dotenv_again dotenv environ :
  load_dotenv dotenv (load_dotenv dotenv environ) = load_dotenv dotenv environ.
Proof.
  unfold load_dotenv. by rewrite <- (assoc_L (∪)), (idemp_L (∪)).
Qed.

(** C9: [_rois] and [_objects_in_rois] are attributes of the class, shared
    by all engines.  Building a first engine on [r1] and then a second on
    [r2] leaves one region list of length [len r1 + len r2] (and as many
    presence maps), and both engines read that same list. *)
Theorem constructors_share_regions r1 r2 dotenv environ ch :
  load_dotenv dotenv environ !! "SLACK_CHANNEL" = Some ch →
  let b1 := RuleEngine_init r1 dotenv RuleEngine_class environ in
  let b2 := RuleEngine_init r2 dotenv b1.1.2 b1.2 in
  ∃ e1 e2, b1.1.1 = Return e1 ∧ b2.1.1 = Return e2 ∧
    length (self_rois b1.1.2 e1) = length r1 ∧
    self_rois b2.1.2 e1 = (Polygon_of <$> r1) ++ (Polygon_of <$> r2) ∧
    self_rois b2.1.2 e2 = self_rois b2.1.2 e1 ∧
    length (self_rois b2.1.2 e1) = (length r1 + length r2)%nat ∧
    length (self_rois b2.1.2 e2) = (length r1 + length r2)%nat ∧
    self_objects_in_rois b2.1.2 e2 = self_objects_in_rois b2.1.2 e1 ∧
    length (self_objects_in_rois b2.1.2 e1) = (length r1 + length r2)%nat.
Proof.
  intros Hch b1 b2.
  destruct (RuleEngine_init_returns r1 dotenv RuleEngine_class environ ch Hch)
    as (e1 & He1 & _).
  assert (Hch2 : load_dotenv dotenv b1.2 !! "SLACK_CHANNEL" = Some ch).
  { subst b1. by rewrite RuleEngine_init_environ, load_dotenv_again. }
  destruct (RuleEngine_init_returns r2 dotenv b1.1.2 b1.2 ch Hch2)
    as (e2 & He2 & _).
  exists e1, e2. unfold self_rois, self_objects_in_rois.
  assert (Hc1 : b1.1.2 = foldl append_roi RuleEngine_class r1)
    by apply RuleEngine_init_class.
  assert (Hc2 : b2.1.2 = foldl append_roi b1.1.2 r2)
    by apply RuleEngine_init_class.
  destruct (append_rois RuleEngine_class r1) as (Hr1 & Ho1 & _).
  destruct (append_rois b1.1.2 r2) as (Hr2 & Ho2 & _).
  rewrite <- Hc2 in Hr2, Ho2. rewrite <- Hc1 in Hr1, Ho1.
  simpl in Hr1, Ho1. rewrite Hr1 in Hr2. rewrite Ho1 in Ho2.
  rewrite Hr1, Hr2, Ho2.
  rewrite !length_app, !length_fmap, !length_replicate.
  split_and!; done.
Qed.

(** ** What [execute] leaves alone, and what it can raise *)

Lemma execute_at_preserves i obj_class frame_num cam timestamp s :
  let s' := (execute_at i obj_class frame_num cam timestamp s).2 in
  _rois (cls s') = _rois (cls s) ∧
  _maximum_allowed_diff (cls s') = _maximum_allowed_diff (cls s) ∧
  own_slack_client (self s') = own_slack_client (self s) ∧
  own_slack_channel (self s') = own_slack_channel (self s).
Proof.
  rewrite execute_at_eq.
  destruct (_objects_in_rois (cls s) !! i) as [d|]; [|done]. simpl.
  destruct (<[obj_class:=true]> d !! "car") as [[]|]; try done.
  destruct (<[obj_class:=true]> d !! "person") as [[]|]; try done.
  destruct (bool_decide _ && _); [|done].
  rewrite notify_eq. unfold slack_client. simpl.
  destruct (own_slack_client (self s)) eqn:Hc;
    [destruct (notify_result _)|]; simpl; by rewrite Hc.
Qed.

Lemma execute_preserves object obj_class frame_num cam timestamp s :
  let s' := (execute object obj_class frame_num cam timestamp s).2 in
  _rois (cls s') = _rois (cls s) ∧
  _maximum_allowed_diff (cls s') = _maximum_allowed_diff (cls s) ∧
  own_slack_client (self s') = own_slack_client (self s) ∧
  own_slack_channel (self s') = own_slack_channel (self s).
Proof.
  rewrite execute_region. destruct (region_of _ _ _); [|done].
  apply execute_at_preserves.
Qed.

Lemma execute_objects object obj_class frame_num cam timestamp s :
  _objects_in_rois
    (cls (execute object obj_class frame_num cam timestamp s).2) =
  match region_of (centroid object) (_rois (cls s)) 0 with
  | Some i =>
      match _objects_in_rois (cls s) !! i with
      | Some d => <[i := <[obj_class := true]> d]> (_objects_in_rois (cls s))
      | None => _objects_in_rois (cls s)
      end
  | None => _objects_in_rois (cls s)
  end.
Proof.
  rewrite execute_region. destruct (region_of _ _ _); [|done].
  apply execute_at_objects.
Qed.

Lemma execute_keys_cover object obj_class frame_num cam timestamp s :
  keys_cover (cls s) →
  keys_cover (cls (execute object obj_class frame_num cam timestamp s).2).
Proof.
  intros [Hlen Hkeys]. unfold keys_cover.
  destruct (execute_preserves object obj_class frame_num cam timestamp s)
    as (-> & _).
  rewrite execute_objects.
  destruct (region_of _ _ _) as [i|]; [|done].
  destruct (_objects_in_rois (cls s) !! i) as [d|] eqn:Hd; [|done].
  rewrite length_insert. split; [done|].
  apply Forall_insert; [done|].
  eapply Forall_lookup_1 in Hkeys; [|done].
  rewrite dom_insert_L. by apply union_subseteq_r'.
Qed.

(** ** One notification per frame number *)

Lemma gate_step_refl f s : gate_step f s s.
Proof. split; [done|]. by left. Qed.

Lemma gate_step_trans f s1 s2 s3 :
  gate_step f s1 s2 → gate_step f s2 s3 → gate_step f s1 s3.
Proof.
  intros [Ht1 H1] [Ht2 H2]. split; [congruence|].
  destruct H1 as [[Hp1 Hl1]|(Hl1 & Hn1 & m1 & Hp1)],
           H2 as [[Hp2 Hl2]|(Hl2 & Hn2 & m2 & Hp2)].
  - left. split; [congruence|auto].
  - right. split_and!; [done|naive_solver|]. exists m2. congruence.
  - right. split_and!; [auto|done|]. exists m1. congruence.
  - done.
Qed.

Lemma execute_at_gate_step i obj_class f cam timestamp s :
  0 ≤ _maximum_allowed_diff (cls s) →
  gate_step f s (execute_at i obj_class f cam timestamp s).2.
Proof.
  intros Hthr. rewrite execute_at_eq.
  destruct (_objects_in_rois (cls s) !! i) as [d|];
    [|apply gate_step_refl]. simpl.
  destruct (<[obj_class:=true]> d !! "car") as [[]|];
    try (split; [done|by left]).
  destruct (<[obj_class:=true]> d !! "person") as [[]|];
    try (split; [done|by left]).
  destruct (bool_decide (slack_client s ≠ None)) eqn:Hc; simpl;
    [|split; [done|by left]].
  destruct (_ <? _) eqn:Hgap; [|split; [done|by left]].
  apply bool_decide_eq_true in Hc. apply Z.ltb_lt in Hgap.
  rewrite notify_eq. unfold slack_client in *. simpl.
  destruct (own_slack_client (self s)); [|done].
  split; [by destruct (notify_result _)|]. right.
  split_and!.
  - by destruct (notify_result _).
  - lia.
  - eexists. by destruct (notify_result _).
Qed.

Lemma execute_gate_step object obj_class f cam timestamp s :
  0 ≤ _maximum_allowed_diff (cls s) →
  gate_step f s (execute object obj_class f cam timestamp s).2.
Proof.
  intros Hthr. rewrite execute_region.
  destruct (region_of _ _ _); [|apply gate_step_refl].
  by apply execute_at_gate_step.
Qed.

Lemma render_detections_gate_step cam f timestamp dets alerts s :
  0 ≤ _maximum_allowed_diff (cls s) →
  gate_step f s (render_detections cam f timestamp dets alerts s).2.
Proof.
  revert alerts s. induction dets as [|det rest IH]; intros alerts s Hthr.
  { apply gate_step_refl. }
  pose proof (execute_gate_step (det_object det) (det_class det) f cam
                timestamp s Hthr) as Hstep.
  simpl. run.
  destruct (execute (det_object det) (det_class det) f cam timestamp s)
    as [[r|e] s1]; simpl in *; [|done].
  unfold color_of.
  destruct (bool_decide (det_class det ∈ colors)); simpl; [|done].
  eapply gate_step_trans; [done|]. apply IH.
  destruct Hstep as [-> _]. done.
Qed.

Lemma render_frame_gate_step cam frame s :
  0 ≤ _maximum_allowed_diff (cls s) →
  gate_step (frame_num_of frame) s (render_frame cam frame s).2.
Proof.
  intros Hthr. unfold render_frame.
  pose proof (render_detections_gate_step cam (frame_num_of frame)
                (timestamp_of frame) (detections frame) ∅ s Hthr) as Hstep.
  run.
  destruct (render_detections _ _ _ _ _ s) as [[alerts|e] s1]; simpl in *; done.
Qed.

Lemma render_gate_step cam f frames s :
  0 ≤ _maximum_allowed_diff (cls s) →
  Forall (λ frame, frame_num_of frame = f) frames →
  gate_step f s (render cam frames s).2.
Proof.
  revert s. induction frames as [|frame rest IH]; intros s Hthr Hsame.
  { apply gate_step_refl. }
  apply Forall_cons in Hsame as [<- Hsame].
  pose proof (render_frame_gate_step cam frame s Hthr) as Hstep.
  simpl. run.
  destruct (render_frame cam frame s) as [[alerts|e] s1]; simpl in *; [|done].
  eapply gate_step_trans; [done|]. apply IH; [|done].
  destruct Hstep as [-> _]. done.
Qed.

(** The answer of the last of a series of calls depends on the state only
    through the frame number of the call before it. *)
Lemma should_notify_all_snoc l f s :
  ∃ bs, length bs = length l ∧
    (should_notify_all (l ++ [f]) s).1 =
    Return (bs ++ [bool_decide (slack_client s ≠ None) &&
                   (_maximum_allowed_diff (cls s) <?
                      f - default (_last_positive_frame s) (last l))]).
Proof.
  revert s. induction l as [|g l IH]; intros s.
  { by exists []. }
  destruct (IH (set_last_positive_frame g s)) as (bs & Hlen & Hbs).
  exists ((bool_decide (slack_client s ≠ None) &&
           (_maximum_allowed_diff (cls s) <? g - _last_positive_frame s))
          :: bs).
  split; [simpl; by rewrite Hlen|].
  simpl. run.
  destruct (should_notify_all (l ++ [f]) (set_last_positive_frame g s))
    as [[bs'|e] s'] eqn:Hrun; simpl in *; [|done].
  injection Hbs as ->. do 3 f_equal.
  rewrite last_cons. unfold _last_positive_frame, slack_client. simpl.
  by destruct (last l).
Qed.

Lemma last_between f mid :
  StronglySorted Z.le (f :: mid ++ [f]) → last (f :: mid) = Some f.
Proof.
  destruct mid as [|g mid _] using rev_ind; [done|].
  intros [Hge Hsorted]%StronglySorted_cons.
  rewrite app_comm_cons, last_snoc. f_equal.
  assert (f ≤ g).
  { rewrite Forall_forall in Hge. apply Hge. set_solver. }
  assert (g ≤ f).
  { eapply StronglySorted_app_1_elem_of; [done|set_solver..]. }
  lia.
Qed.

(** ** A failing notifier *)

(** C8, as the code has it: when the rule is positive and the gate opens,
    the mark, the count and the gate update stay whatever the client does
    with the message.  If the client raises a [SlackApiError] whose
    response names an error, [notify] swallows it: [execute] returns the
    region index and the event loop goes on with the next detection. *)
Theorem notify_failure_recovered object obj_class frame_num cam_name
    timestamp s i d :
  region_of (centroid object) (_rois (cls s)) 0 = Some i →
  _objects_in_rois (cls s) !! i = Some d → tracked ⊆ dom d →
  car_and_person (<[obj_class := true]> d) = true →
  slack_client s ≠ None →
  _maximum_allowed_diff (cls s) < frame_num - _last_positive_frame s →
  let s' := handed timestamp cam_name
              (counted frame_num (marked i obj_class d s)) in
  (execute object obj_class frame_num cam_name timestamp s).2 = s' ∧
  _objects_in_rois (cls s') !! i = Some (<[obj_class := true]> d) ∧
  _count s' = _count s + 1 ∧
  _last_positive_frame s' = frame_num ∧
  ∀ err, head (outcomes (slack s)) = Some (Some (SlackApiError err)) →
    truthy_opt err = true →
    execute object obj_class frame_num cam_name timestamp s =
      (Return (Z.of_nat i), s') ∧
    ∀ rest alerts, obj_class ∈ colors →
      render_detections cam_name frame_num timestamp
        ({| det_class := obj_class; det_object := object |} :: rest)
        alerts s =
      render_detections cam_name frame_num timestamp rest
        ({[Z.of_nat i]} ∪ alerts) s'.
Proof.
  intros Hregion Hd Hkeys Hrule Hclient Hgap s'.
  assert (Hrun : execute object obj_class frame_num cam_name timestamp s =
    (match notify_result (head (outcomes (slack s))) with
     | Return _ => Return (Z.of_nat i)
     | Raise e => Raise e
     end, s')).
  { rewrite execute_region, Hregion.
    rewrite (execute_at_cases _ _ _ _ _ _ d Hd Hkeys), Hrule.
    rewrite (bool_decide_eq_true_2 _ Hclient).
    by apply Z.ltb_lt in Hgap as ->. }
  split_and!.
  - by rewrite Hrun.
  - subst s'. simpl. apply list_lookup_insert_eq. by eapply lookup_lt_Some.
  - done.
  - done.
  - intros err Hhead Htruthy.
    assert (Hok : execute object obj_class frame_num cam_name timestamp s =
                  (Return (Z.of_nat i), s')).
    { rewrite Hrun, Hhead. simpl. by rewrite Htruthy. }
    split; [done|]. intros rest alerts Hcolor.
    simpl. run. rewrite Hok. unfold color_of.
    by rewrite (bool_decide_eq_true_2 _ Hcolor).
Qed.

(** * Further properties *)

(** ** A run of close frames *)

(** X1: the gate compares each frame number with the one of the call
    before it, answered true or not.  Along a series of calls in which
    every frame number is within the threshold of the one before (the first
    one within the threshold of the stored [_last_positive_frame], which is
    0 on a new engine), every answer is false, however long the series; the
    gate ends at the last frame number. *)
Theorem close_frames_keep_gate_shut s frames :
  close_frames (_maximum_allowed_diff (cls s)) (_last_positive_frame s)
    frames →
  (should_notify_all frames s).1 = Return (replicate (length frames) false) ∧
  _last_positive_frame (should_notify_all frames s).2 =
    default (_last_positive_frame s) (last frames).
Proof.
  revert s. induction frames as [|f rest IH]; intros s; simpl; [done|].
  intros [Hgap Hrest].
  destruct (IH (set_last_positive_frame f s) Hrest) as [Hans Hlast].
  run.
  destruct (should_notify_all rest (set_last_positive_frame f s))
    as [[bs|e] s'] eqn:Hrun; simpl in *; [|done].
  injection Hans as ->. split.
  - do 2 f_equal. apply andb_false_intro2, Z.ltb_ge. lia.
  - rewrite Hlast, last_cons. unfold _last_positive_frame. simpl.
    by destruct (last rest).
Qed.

(** ** When [execute] leaves Slack alone *)

(** With the gate shut, the body of [execute] ends after the count. *)
Lemma execute_at_closed i obj_class frame_num cam timestamp s d :
  _objects_in_rois (cls s) !! i = Some d → tracked ⊆ dom d →
  slack_client s = None ∨
  frame_num - _last_positive_frame s ≤ _maximum_allowed_diff (cls s) →
  execute_at i obj_class frame_num cam timestamp s =
  if car_and_person (<[obj_class := true]> d)
  then (Return (Z.of_nat i), counted frame_num (marked i obj_class d s))
  else (Return (-1), marked i obj_class d s).
Proof.
  intros Hd Hkeys Hquiet.
  rewrite (execute_at_cases _ _ _ _ _ _ d Hd Hkeys).
  destruct (car_and_person _); [|done].
  assert (bool_decide (slack_client s ≠ None) &&
          (_maximum_allowed_diff (cls s) <?
             frame_num - _last_positive_frame s) = false) as ->; [|done].
  destruct Hquiet as [Hnone|Hgap].
  - apply andb_false_intro1, bool_decide_eq_false. by intros [].
  - apply andb_false_intro2, Z.ltb_ge. lia.
Qed.

(** X2: [execute] hands nothing to the Slack client, and cannot raise,
    when no client is configured or when the frame number is within the
    threshold of [_last_positive_frame]: the Slack log and the pending
    outcomes are exactly as before. *)
Theorem execute_without_notification object obj_class frame_num cam_name
    timestamp s :
  keys_cover (cls s) →
  slack_client s = None ∨
  frame_num - _last_positive_frame s ≤ _maximum_allowed_diff (cls s) →
  slack (execute object obj_class frame_num cam_name timestamp s).2 =
    slack s ∧
  ∃ r, (execute object obj_class frame_num cam_name timestamp s).1 = Return r.
Proof.
  intros Hinv Hquiet. rewrite execute_region.
  destruct (region_of _ _ _) as [i|] eqn:Hregion; [|eauto].
  destruct (keys_cover_region _ _ _ Hinv Hregion) as (d & Hd & Hkeys).
  rewrite (execute_at_closed _ _ _ _ _ _ d Hd Hkeys Hquiet).
  destruct (car_and_person _); eauto.
Qed.

(** ** Rules for the loops of [render] *)

(** A property [P] that every step keeps and a relation [R] that every
    step establishes, [R] being reflexive and transitive, hold along the
    detections of a frame, also when the loop is left by an exception. *)
Lemma render_detections_rule (P : State → Prop) (R : State → State → Prop)
    cam f timestamp :
  (∀ s, R s s) →
  (∀ s1 s2 s3, R s1 s2 → R s2 s3 → R s1 s3) →
  (∀ object obj_class s, P s →
     P (execute object obj_class f cam timestamp s).2 ∧
     R s (execute object obj_class f cam timestamp s).2) →
  ∀ dets alerts s, P s →
    P (render_detections cam f timestamp dets alerts s).2 ∧
    R s (render_detections cam f timestamp dets alerts s).2.
Proof.
  intros Hrefl Htrans Hstep dets.
  induction dets as [|det rest IH]; intros alerts s HP; [by split|].
  destruct (Hstep (det_object det) (det_class det) s HP) as [HP1 HR1].
  simpl. run.
  destruct (execute (det_object det) (det_class det) f cam timestamp s)
    as [[r|e] s1]; simpl in *; [|done].
  unfold color_of.
  destruct (bool_decide (det_class det ∈ colors)); simpl; [|done].
  destruct (IH ({[r]} ∪ alerts) s1 HP1) as [HP2 HR2].
  split; [done|]. by eapply Htrans.
Qed.

Lemma render_rule (P : State → Prop) (R : State → State → Prop) cam frames :
  (∀ s, R s s) →
  (∀ s1 s2 s3, R s1 s2 → R s2 s3 → R s1 s3) →
  (∀ frame object obj_class s, frame ∈ frames → P s →
     P (execute object obj_class (frame_num_of frame) cam
          (timestamp_of frame) s).2 ∧
     R s (execute object obj_class (frame_num_of frame) cam
            (timestamp_of frame) s).2) →
  (∀ s, P s → P (reset_objects s).2 ∧ R s (reset_objects s).2) →
  ∀ s, P s → P (render cam frames s).2 ∧ R s (render cam frames s).2.
Proof.
  intros Hrefl Htrans Hstep Hreset.
  induction frames as [|frame rest IH]; intros s HP; [by split|].
  destruct (render_detections_rule P R cam (frame_num_of frame)
              (timestamp_of frame) Hrefl Htrans
              (λ o c s' HP', Hstep frame o c s' (list_elem_of_here _ _) HP')
              (detections frame) ∅ s HP) as [HP1 HR1].
  simpl. unfold render_frame. run.
  destruct (render_detections _ _ _ _ _ s) as [[alerts|e] s1];
    simpl in *; [|done].
  destruct (Hreset s1 HP1) as [HP2 HR2]. simpl in HP2, HR2.
  assert (HR12 : R s
    (set_objects_in_rois
       (foldl (λ o index, <[index:=fresh_presence]> o)
          (_objects_in_rois (cls s1))
          (seq 0 (length (_objects_in_rois (cls s1))))) s1))
    by (by eapply Htrans).
  destruct (IH (λ fr o c s' Hin HP', Hstep fr o c s'
                  (list_elem_of_further _ _ _ Hin) HP') _ HP2) as [HP3 HR3].
  split; [done|]. by eapply Htrans.
Qed.

(** ** What every run keeps *)

Lemma evolves_refl cam stamps s : evolves cam stamps s s.
Proof.
  unfold evolves. split_and!; try done.
  exists [], []. rewrite app_nil_r. split_and!; [done..|unfold _count; simpl; lia|constructor].
Qed.

Lemma evolves_trans cam stamps s1 s2 s3 :
  evolves cam stamps s1 s2 → evolves cam stamps s2 s3 →
  evolves cam stamps s1 s3.
Proof.
  intros (Hr1 & Ht1 & Hc1 & Hch1 & Hl1 & new1 & used1 & Hp1 & Ho1 & Hn1 & Hm1)
         (Hr2 & Ht2 & Hc2 & Hch2 & Hl2 & new2 & used2 & Hp2 & Ho2 & Hn2 & Hm2).
  unfold evolves. split_and!; try congruence.
  exists (new1 ++ new2), (used1 ++ used2). split_and!.
  - by rewrite Hp2, Hp1, app_assoc.
  - by rewrite Ho1, Ho2, app_assoc.
  - rewrite length_app. lia.
  - apply Forall_app. split; [done|]. by rewrite <- Hch1.
Qed.

Lemma evolves_weaken cam (stamps stamps' : Z → Prop) s s' :
  (∀ t, stamps t → stamps' t) →
  evolves cam stamps s s' → evolves cam stamps' s s'.
Proof.
  intros Hsub (Hr & Ht & Hc & Hch & Hl & new & used & Hp & Ho & Hn & Hm).
  unfold evolves. split_and!; try done.
  exists new, used. split_and!; try done.
  eapply Forall_impl; [done|]. intros m (? & ? & ? & ?). auto.
Qed.

Lemma execute_at_evolves i obj_class frame_num cam timestamp s :
  evolves cam (λ t, t = timestamp) s
    (execute_at i obj_class frame_num cam timestamp s).2.
Proof.
  rewrite execute_at_eq.
  destruct (_objects_in_rois (cls s) !! i) as [d|] eqn:Hd;
    [|apply evolves_refl]. simpl.
  assert (Hmarked : evolves cam (λ t, t = timestamp) s (marked i obj_class d s)).
  { unfold evolves. simpl. split_and!; try done.
    - apply length_insert.
    - exists [], []. rewrite app_nil_r.
      split_and!; [done..|unfold _count; simpl; lia|constructor]. }
  assert (Hcounted : evolves cam (λ t, t = timestamp) s
                       (counted frame_num (marked i obj_class d s))).
  { unfold evolves. simpl. split_and!; try done.
    - apply length_insert.
    - exists [], []. rewrite app_nil_r.
      split_and!; [done..| |constructor].
      unfold counted, marked, _count. simpl. lia. }
  destruct (<[obj_class:=true]> d !! "car") as [[]|]; try done.
  destruct (<[obj_class:=true]> d !! "person") as [[]|]; try done.
  destruct (bool_decide _ && _); [|done].
  rewrite notify_eq. unfold slack_client. simpl.
  destruct (own_slack_client (self s)) eqn:Hclient; [|done].
  assert (Hhanded : evolves cam (λ t, t = timestamp) s
    (handed timestamp cam (counted frame_num (marked i obj_class d s)))).
  { unfold evolves. simpl. split_and!; try done.
    - apply length_insert.
    - eexists [_], (take 1 (outcomes (slack s))). split_and!.
      + done.
      + by destruct (outcomes (slack s)).
      + unfold handed, counted, marked, _count. simpl. lia.
      + by repeat constructor. }
  by destruct (notify_result _).
Qed.

Lemma execute_evolves object obj_class frame_num cam timestamp s :
  evolves cam (λ t, t = timestamp) s
    (execute object obj_class frame_num cam timestamp s).2.
Proof.
  rewrite execute_region. destruct (region_of _ _ _); [|apply evolves_refl].
  apply execute_at_evolves.
Qed.

Lemma reset_objects_evolves cam stamps s :
  evolves cam stamps s (reset_objects s).2.
Proof.
  rewrite reset_objects_eq. unfold evolves. simpl. split_and!; try done.
  - apply length_replicate.
  - exists [], []. rewrite app_nil_r. split_and!; [done..|unfold _count; simpl; lia|constructor].
Qed.

Lemma reset_objects_keys_cover s :
  keys_cover (cls s) → keys_cover (cls (reset_objects s).2).
Proof.
  intros [Hlen _]. rewrite reset_objects_eq. unfold keys_cover. simpl.
  rewrite length_replicate. split; [done|].
  apply Forall_forall. intros d [-> _]%elem_of_replicate.
  by rewrite fresh_presence_dom.
Qed.

(** The timestamps of a list of frames. *)
Lemma render_evolves cam frames s :
  keys_cover (cls s) →
  keys_cover (cls (render cam frames s).2) ∧
  evolves cam (λ t, ∃ frame, frame ∈ frames ∧ timestamp_of frame = t) s
    (render cam frames s).2.
Proof.
  apply (render_rule (λ s, keys_cover (cls s))).
  - apply evolves_refl.
  - apply evolves_trans.
  - intros frame object obj_class s' Hin Hinv. split.
    + by apply execute_keys_cover.
    + eapply evolves_weaken; [|apply execute_evolves].
      intros t ->. by exists frame.
  - intros s' Hinv. split.
    + by apply reset_objects_keys_cover.
    + apply reset_objects_evolves.
Qed.

Lemma render_detections_evolves cam f timestamp dets alerts s :
  keys_cover (cls s) →
  keys_cover (cls (render_detections cam f timestamp dets alerts s).2) ∧
  evolves cam (λ t, t = timestamp) s
    (render_detections cam f timestamp dets alerts s).2.
Proof.
  apply (render_detections_rule (λ s, keys_cover (cls s))).
  - apply evolves_refl.
  - apply evolves_trans.
  - intros object obj_class s' Hinv. split.
    + by apply execute_keys_cover.
    + apply execute_evolves.
Qed.

(** X3: the event loop never changes the configuration: after [render],
    however it ends, the regions, the threshold, the client and the channel
    are the ones it started with, there is still one presence map per
    region, and every map still has the keys "car", "person", "truck". *)
Theorem render_keeps_configuration cam_name frames s :
  keys_cover (cls s) →
  let s' := (render cam_name frames s).2 in
  keys_cover (cls s') ∧
  _rois (cls s') = _rois (cls s) ∧
  _maximum_allowed_diff (cls s') = _maximum_allowed_diff (cls s) ∧
  slack_client s' = slack_client s ∧
  own_slack_channel (self s') = own_slack_channel (self s) ∧
  length (_objects_in_rois (cls s')) = length (_rois (cls s)).
Proof.
  intros Hinv s'. subst s'.
  destruct (render_evolves cam_name frames s Hinv)
    as [Hinv' (Hrois & Hthr & Hclient & Hchannel & Hlen & _)].
  split_and!; try done.
  destruct Hinv as [<- _]. done.
Qed.

(** X4: every message the event loop hands to Slack is backed by a counted
    occurrence and describes it: the log only grows at its end, [_count]
    grows by at least the number of new messages, and each new message
    names the channel of the engine, the rule "Car and Person", the camera,
    and the timestamp of one of the frames. *)
Theorem render_posts_counted_alerts cam_name frames s :
  keys_cover (cls s) →
  let s' := (render cam_name frames s).2 in
  ∃ new,
    posted (slack s') = posted (slack s) ++ new ∧
    _count s + Z.of_nat (length new) ≤ _count s' ∧
    Forall (λ m, msg_channel m = default "" (own_slack_channel (self s)) ∧
                 msg_rule_name m = "Car and Person" ∧
                 msg_cam_name m = cam_name ∧
                 ∃ frame, frame ∈ frames ∧
                          msg_timestamp m = timestamp_of frame) new.
Proof.
  intros Hinv s'. subst s'.
  destruct (render_evolves cam_name frames s Hinv)
    as [_ (_ & _ & _ & _ & _ & new & used & Hposted & _ & Hcount & Hmsgs)].
  exists new. split_and!; [done|lia|].
  eapply Forall_impl; [done|].
  intros m (Hch & Hrule & Hcam & frame & Hin & Hts). split_and!; eauto.
Qed.

Lemma evolves_client cam stamps s s' :
  evolves cam stamps s s' → slack_client s' = slack_client s.
Proof. by intros (_ & _ & Hclient & _). Qed.

(** ** An engine without client *)

(** X6: without a Slack client the event loop never touches Slack: after
    [render], however it ends, the log and the pending outcomes are as
    before and there is still no client. *)
Theorem render_without_client cam_name frames s :
  keys_cover (cls s) → slack_client s = None →
  slack (render cam_name frames s).2 = slack s ∧
  slack_client (render cam_name frames s).2 = None.
Proof.
  intros Hinv Hnone. split.
  - apply (render_rule (λ s, keys_cover (cls s) ∧ slack_client s = None)
             (λ s s', slack s' = slack s) cam_name frames); [done| | | |done].
    + intros s1 s2 s3. congruence.
    + intros frame object obj_class s1 _ [Hinv1 Hnone1]. split_and!.
      * by apply execute_keys_cover.
      * destruct (execute_preserves object obj_class (frame_num_of frame)
                    cam_name (timestamp_of frame) s1) as (_ & _ & Hc & _).
        unfold slack_client in *. congruence.
      * rewrite execute_region.
        destruct (region_of _ _ _) as [i|] eqn:Hregion; [|done].
        destruct (keys_cover_region _ _ _ Hinv1 Hregion) as (d & Hd & Hkeys).
        rewrite (execute_at_closed _ _ _ _ _ _ d Hd Hkeys (or_introl Hnone1)).
        by destruct (car_and_person _).
    + intros s1 [Hinv1 Hnone1]. split_and!; [|done..].
      by apply reset_objects_keys_cover.
  - destruct (render_evolves cam_name frames s Hinv) as [_ Hev].
    by rewrite (evolves_client _ _ _ _ Hev).
Qed.

(** ** The overlay *)

Lemma draw_rois_loop_eq alerts rois index indicator drawn :
  draw_rois_loop alerts rois index indicator drawn =
  (indicator ||
     existsb (λ k, bool_decide (Z.of_nat k ∈ alerts))
       (seq index (length rois)),
   drawn ++ imap (λ k roi, (roi, if bool_decide (Z.of_nat (index + k) ∈ alerts)
                                 then "alert" else "other")) rois).
Proof.
  revert index indicator drawn.
  induction rois as [|roi rest IH]; intros index indicator drawn; simpl.
  { by rewrite orb_false_r, app_nil_r. }
  replace (index + 0)%nat with index by lia.
  assert (Hshift :
    imap ((λ k roi0, (roi0, if bool_decide (Z.of_nat (index + k) ∈ alerts)
                            then "alert" else "other")) ∘ S) rest =
    imap (λ k roi0, (roi0, if bool_decide (Z.of_nat (S index + k) ∈ alerts)
                           then "alert" else "other")) rest).
  { apply imap_ext. intros k roi0 _. simpl.
    by replace (index + S k)%nat with (S (index + k)) by lia. }
  rewrite Hshift.
  destruct (bool_decide (Z.of_nat index ∈ alerts)); rewrite IH; simpl.
  - by rewrite orb_true_r, <- app_assoc.
  - by rewrite <- app_assoc.
Qed.

(** X7: the overlay of a frame.  Every region is drawn once, in configured
    order, in the alert colour exactly when its index is among the values
    [execute] returned for the frame and in the neutral colour otherwise;
    the border is in the alert colour exactly when some region is.  The
    [-1] that negative evaluations leave in the set never matters, and the
    colours used are keys of [__colors]. *)
Theorem draw_rois_spec alerts rois :
  (draw_rois alerts rois).2.*1 = rois ∧
  (∀ i roi, rois !! i = Some roi →
     (draw_rois alerts rois).2 !! i =
       Some (roi, if bool_decide (Z.of_nat i ∈ alerts)
                  then "alert" else "other")) ∧
  ((draw_rois alerts rois).1 = true ↔
     ∃ i, (i < length rois)%nat ∧ Z.of_nat i ∈ alerts) ∧
  (border_color (draw_rois alerts rois).1 = "alert" ↔
     ∃ roi, (roi, "alert") ∈ (draw_rois alerts rois).2) ∧
  Forall (λ p, p.2 ∈ colors) (draw_rois alerts rois).2 ∧
  draw_rois ({[ (-1) ]} ∪ alerts) rois = draw_rois alerts rois.
Proof.
  unfold draw_rois. rewrite !draw_rois_loop_eq. simpl.
  assert (Hind : existsb (λ k, bool_decide (Z.of_nat k ∈ alerts))
                   (seq 0 (length rois)) = true ↔
                 ∃ i, (i < length rois)%nat ∧ Z.of_nat i ∈ alerts).
  { rewrite existsb_exists. split.
    - intros (i & Hin & Hi). exists i. apply in_seq in Hin.
      apply bool_decide_eq_true in Hi. split; [lia|done].
    - intros (i & Hlt & Hi). exists i. split.
      + apply in_seq. lia.
      + by apply bool_decide_eq_true. }
  split_and!.
  - apply list_eq. intros i. rewrite list_lookup_fmap, list_lookup_imap.
    by destruct (rois !! i).
  - intros i roi Hroi. by rewrite list_lookup_imap, Hroi.
  - done.
  - rewrite <- (bool_decide_eq_true (existsb _ _ = true)) in Hind.
    destruct (existsb _ _) eqn:Hex; simpl.
    + split; [intros _|done].
      destruct (proj1 Hind) as (i & Hlt & Hi); [by apply bool_decide_eq_true|].
      apply lookup_lt_is_Some in Hlt as [roi Hroi]. exists roi.
      apply list_elem_of_lookup. exists i.
      rewrite list_lookup_imap, Hroi. simpl.
      by rewrite (bool_decide_eq_true_2 _ Hi).
    + split; [done|]. intros (roi & Hin).
      apply list_elem_of_lookup in Hin as (i & Hi).
      rewrite list_lookup_imap in Hi.
      destruct (rois !! i) as [roi'|] eqn:Hroi; [|done]. simpl in Hi.
      destruct (bool_decide (Z.of_nat i ∈ alerts)) eqn:Hal; [|congruence].
      apply bool_decide_eq_true in Hal.
      assert (true = false); [|done]. rewrite <- Hex. symmetry.
      apply existsb_exists. exists i. split.
      * apply in_seq. apply lookup_lt_Some in Hroi. lia.
      * by apply bool_decide_eq_true.
  - apply Forall_forall. intros [roi c] Hin.
    apply list_elem_of_lookup in Hin as (i & Hi).
    rewrite list_lookup_imap in Hi.
    destruct (rois !! i); [|done]. simpl in Hi. injection Hi as <- <-.
    destruct (bool_decide _); simpl; unfold colors;
      rewrite !elem_of_cons; auto 10.
  - assert (Hsame : ∀ k : nat,
      bool_decide (Z.of_nat k ∈ ({[ (-1) ]} ∪ alerts : gset Z)) =
      bool_decide (Z.of_nat k ∈ alerts)).
    { intros k. apply bool_decide_ext.
      rewrite elem_of_union, elem_of_singleton. split; [|by right].
      intros [Hneg|Hin]; [lia|done]. }
    f_equal.
    + clear Hind. induction (seq 0 (length rois)) as [|k ks IH]; [done|].
      simpl. by rewrite Hsame, IH.
    + apply imap_ext. intros k roi _. simpl. by rewrite Hsame.
Qed.

(** ** Which regions a frame alerts *)

Lemma insert_true_lookup d c key :
  <[c := true]> d !! key = Some true ↔ key = c ∨ d !! key = Some true.
Proof.
  destruct (decide (c = key)) as [->|Hne].
  - rewrite lookup_insert_eq. split; [by left|done].
  - rewrite lookup_insert_ne by done. split; [by right|].
    intros [->|Hd]; done.
Qed.

Lemma car_and_person_insert d c :
  car_and_person d = true → car_and_person (<[c := true]> d) = true.
Proof.
  rewrite !car_and_person_true, !insert_true_lookup. intros [? ?]. auto.
Qed.

(** What [execute] returns, when it returns. *)
Lemma execute_returned object obj_class frame_num cam timestamp s r :
  keys_cover (cls s) →
  (execute object obj_class frame_num cam timestamp s).1 = Return r →
  r = match region_of (centroid object) (_rois (cls s)) 0 with
      | Some j =>
          match _objects_in_rois (cls s) !! j with
          | Some d => if car_and_person (<[obj_class := true]> d)
                      then Z.of_nat j else -1
          | None => -1
          end
      | None => -1
      end.
Proof.
  intros Hinv. rewrite execute_region.
  destruct (region_of _ _ _) as [j|] eqn:Hregion; [|by intros [= <-]].
  destruct (keys_cover_region _ _ _ Hinv Hregion) as (d & Hd & Hkeys).
  rewrite (execute_at_cases _ _ _ _ _ _ d Hd Hkeys), Hd.
  destruct (car_and_person _); [|by intros [= <-]].
  destruct (bool_decide _ && _); [|by intros [= <-]]. simpl.
  destruct (notify_result _); [by intros [= <-]|done].
Qed.

(** The set of returned values tells, for every region, whether its
    presence map shows car and person. *)
Lemma render_detections_alerts cam f timestamp dets seen s alerts s' :
  keys_cover (cls s) →
  (∀ i d, _objects_in_rois (cls s) !! i = Some d →
     (Z.of_nat i ∈ seen ↔ car_and_person d = true)) →
  render_detections cam f timestamp dets seen s = (Return alerts, s') →
  ∀ i d, _objects_in_rois (cls s') !! i = Some d →
    (Z.of_nat i ∈ alerts ↔ car_and_person d = true).
Proof.
  revert seen s. induction dets as [|det rest IH]; intros seen s Hinv Hseen.
  { by intros [= <- <-]. }
  pose proof (execute_keys_cover (det_object det) (det_class det) f cam
                timestamp s Hinv) as Hinv1.
  pose proof (execute_objects (det_object det) (det_class det) f cam
                timestamp s) as Hobjs.
  pose proof (execute_returned (det_object det) (det_class det) f cam
                timestamp s) as Hret.
  simpl. run.
  destruct (execute (det_object det) (det_class det) f cam timestamp s)
    as [[r|e] s1]; simpl in *; [|done].
  specialize (Hret r Hinv eq_refl).
  unfold color_of.
  destruct (bool_decide (det_class det ∈ colors)); simpl; [|done].
  apply IH; [done|]. clear IH.
  intros i d Hd. rewrite elem_of_union, elem_of_singleton.
  destruct (region_of _ _ _) as [j|]; [|].
  2:{ rewrite Hobjs in Hd. rewrite <- (Hseen i d Hd). subst r.
      split; [intros [?|?]; [lia|done]|by right]. }
  destruct (_objects_in_rois (cls s) !! j) as [dj|] eqn:Hdj.
  2:{ rewrite Hobjs in Hd. rewrite <- (Hseen i d Hd). subst r.
      split; [intros [?|?]; [lia|done]|by right]. }
  rewrite Hobjs in Hd. destruct (decide (i = j)) as [->|Hne].
  - rewrite list_lookup_insert_eq in Hd by (by eapply lookup_lt_Some).
    injection Hd as <-.
    destruct (car_and_person (<[det_class det:=true]> dj)) eqn:Hrule.
    + split; [done|]. intros _. left. by subst r.
    + split; [|done]. intros [Hr|Hin]; [lia|].
      apply (Hseen j dj Hdj) in Hin.
      apply (car_and_person_insert _ (det_class det)) in Hin. congruence.
  - rewrite list_lookup_insert_ne in Hd by done.
    rewrite <- (Hseen i d Hd).
    split; [|by right]. intros [Hr|Hin]; [|done].
    destruct (car_and_person _); lia.
Qed.

(** The flags of a region after the detections of a frame. *)
Lemma render_detections_flags cam f timestamp dets seen s alerts s' :
  render_detections cam f timestamp dets seen s = (Return alerts, s') →
  ∀ i d, _objects_in_rois (cls s) !! i = Some d →
    ∃ d', _objects_in_rois (cls s') !! i = Some d' ∧
      ∀ c, d' !! c = Some true ↔
           d !! c = Some true ∨ seen_in (_rois (cls s)) dets i c.
Proof.
  revert seen s. induction dets as [|det rest IH]; intros seen s.
  { intros [= <- <-] i d Hd. exists d. split; [done|]. intros c.
    split; [by left|]. intros [Hc|(det & Hin & _)]; [done|].
    by apply elem_of_nil in Hin. }
  pose proof (execute_objects (det_object det) (det_class det) f cam
                timestamp s) as Hobjs.
  destruct (execute_preserves (det_object det) (det_class det) f cam
              timestamp s) as (Hrois & _).
  simpl. run.
  destruct (execute (det_object det) (det_class det) f cam timestamp s)
    as [[r|e] s1]; simpl in *; [|done].
  unfold color_of.
  destruct (bool_decide (det_class det ∈ colors)); simpl; [|done].
  intros Hrun i d Hd.
  assert (Hd1 : ∃ d1, _objects_in_rois (cls s1) !! i = Some d1 ∧
    ∀ c, d1 !! c = Some true ↔
         d !! c = Some true ∨
         (det_class det = c ∧
          region_of (centroid (det_object det)) (_rois (cls s)) 0 = Some i)).
  { rewrite Hobjs.
    destruct (region_of _ _ _) as [j|];
      [|exists d; split; [done|]; intros c; split; [by left|];
        intros [?|[_ ?]]; done].
    destruct (_objects_in_rois (cls s) !! j) as [dj|] eqn:Hdj;
      [|exists d; split; [done|]; intros c; split; [by left|];
        intros [?|[_ [= ->]]]; [done|congruence]].
    destruct (decide (i = j)) as [->|Hne].
    - exists (<[det_class det := true]> d).
      rewrite list_lookup_insert_eq by (by eapply lookup_lt_Some).
      split; [congruence|]. intros c. rewrite insert_true_lookup.
      split.
      + intros [->|?]; [by right|by left].
      + intros [?|[<- _]]; [by right|by left].
    - exists d. rewrite list_lookup_insert_ne by done. split; [done|].
      intros c. split; [by left|]. intros [?|[_ [= ->]]]; done. }
  destruct Hd1 as (d1 & Hd1 & Hflags1).
  destruct (IH _ _ Hrun i d1 Hd1) as (d' & Hd' & Hflags).
  exists d'. split; [done|]. intros c. rewrite Hflags, Hflags1, Hrois.
  unfold seen_in. split.
  - intros [[Hc|[Hcl Hreg]]|(det' & Hin & Hcl & Hreg)].
    + by left.
    + right. exists det. split; [apply list_elem_of_here|done].
    + right. exists det'. split; [by apply list_elem_of_further|done].
  - intros [Hc|(det' & Hin & Hcl & Hreg)]; [by left; left|].
    apply elem_of_cons in Hin as [->|Hin].
    + left. by right.
    + right. by exists det'.
Qed.

(** X8: what a frame alerts.  Started on cleared presence maps, a frame
    that [render] completes returns the index of a region among its alerts
    exactly when the frame has a detection of class "car" and a detection
    of class "person" that are both attributed to that region, in whatever
    order and whatever the gate and Slack did; it leaves cleared maps for
    the next frame. *)
Theorem frame_alerts_car_and_person cam_name frame s alerts s' :
  _objects_in_rois (cls s) =
    replicate (length (_rois (cls s))) fresh_presence →
  render_frame cam_name frame s = (Return alerts, s') →
  (∀ i, (i < length (_rois (cls s)))%nat →
     (Z.of_nat i ∈ alerts ↔
        seen_in (_rois (cls s)) (detections frame) i "car" ∧
        seen_in (_rois (cls s)) (detections frame) i "person")) ∧
  _rois (cls s') = _rois (cls s) ∧
  _objects_in_rois (cls s') =
    replicate (length (_rois (cls s'))) fresh_presence.
Proof.
  intros Hclear Hrun.
  assert (Hinv : keys_cover (cls s)).
  { split; [by rewrite Hclear, length_replicate|]. rewrite Hclear.
    apply Forall_forall. intros d [-> _]%elem_of_replicate.
    by rewrite fresh_presence_dom. }
  destruct (render_detections_evolves cam_name (frame_num_of frame)
              (timestamp_of frame) (detections frame) ∅ s Hinv)
    as [[Hlen1 _] (Hrois1 & _)].
  pose proof (render_detections_alerts cam_name (frame_num_of frame)
                (timestamp_of frame) (detections frame) ∅ s) as Halerts.
  pose proof (render_detections_flags cam_name (frame_num_of frame)
                (timestamp_of frame) (detections frame) ∅ s) as Hflags.
  unfold render_frame, mbind, M_bind in Hrun.
  destruct (render_detections _ _ _ _ _ s) as [[seen|e] s1]; [|done].
  rewrite reset_objects_eq in Hrun. simpl in *. injection Hrun as <- <-.
  simpl. split_and!; [|done|by rewrite Hlen1].
  intros i Hi.
  assert (Hd : _objects_in_rois (cls s) !! i = Some fresh_presence).
  { rewrite Hclear. by apply lookup_replicate_2. }
  destruct (Hflags seen s1 eq_refl i fresh_presence Hd) as (d1 & Hd1 & Hf).
  rewrite (Halerts seen s1 Hinv) with (d := d1); [| |done|done].
  - rewrite car_and_person_true, !Hf.
    rewrite !fresh_presence_lookup
      by (unfold tracked; rewrite !elem_of_union, !elem_of_singleton; auto).
    split.
    + intros [[?|?] [?|?]]; done.
    + intros [? ?]. split; by right.
  - intros j d Hj. rewrite Hclear in Hj.
    apply lookup_replicate in Hj as [-> _].
    split; [by intros ?%elem_of_empty|done].
Qed.

(** ** Recording presence *)

Lemma execute_recorded object obj_class frame_num cam timestamp s :
  _objects_in_rois
    (cls (execute object obj_class frame_num cam timestamp s).2) =
  match region_of (centroid object) (_rois (cls s)) 0 with
  | Some i => recorded i obj_class (_objects_in_rois (cls s))
  | None => _objects_in_rois (cls s)
  end.
Proof. apply execute_objects. Qed.

Lemma recorded_twice i c maps :
  recorded i c (recorded i c maps) = recorded i c maps.
Proof.
  unfold recorded. destruct (maps !! i) as [d|] eqn:Hd; [|by rewrite Hd].
  rewrite list_lookup_insert_eq by (by eapply lookup_lt_Some).
  by rewrite insert_insert_eq, list_insert_insert_eq.
Qed.

Lemma recorded_commute i j c1 c2 maps :
  recorded j c2 (recorded i c1 maps) = recorded i c1 (recorded j c2 maps).
Proof.
  unfold recorded. destruct (decide (i = j)) as [->|Hne].
  - destruct (maps !! j) as [d|] eqn:Hd; [|by rewrite Hd].
    rewrite !list_lookup_insert_eq by (by eapply lookup_lt_Some).
    rewrite !list_insert_insert_eq. f_equal.
    destruct (decide (c1 = c2)) as [->|Hc]; [done|].
    by apply insert_insert_ne.
  - destruct (maps !! i) as [di|] eqn:Hdi, (maps !! j) as [dj|] eqn:Hdj;
      rewrite ?list_lookup_insert_ne, ?Hdi, ?Hdj by done; try done.
    by apply list_insert_insert_ne.
Qed.

(** X10: recording is idempotent.  Evaluating the same detection a second
    time, in whatever frame, leaves the presence maps as the first
    evaluation left them. *)
Theorem execute_marks_idempotent object obj_class f1 cam1 t1 f2 cam2 t2 s :
  _objects_in_rois
    (cls (execute object obj_class f2 cam2 t2
            (execute object obj_class f1 cam1 t1 s).2).2) =
  _objects_in_rois (cls (execute object obj_class f1 cam1 t1 s).2).
Proof.
  rewrite (execute_recorded object obj_class f2).
  destruct (execute_preserves object obj_class f1 cam1 t1 s) as (-> & _).
  rewrite execute_recorded.
  destruct (region_of _ _ _); [|done]. apply recorded_twice.
Qed.

(** X11: the presence maps do not depend on the order in which two
    detections are evaluated, whatever their classes and regions. *)
Theorem execute_marks_commute object1 class1 object2 class2 f cam timestamp s :
  _objects_in_rois
    (cls (execute object2 class2 f cam timestamp
            (execute object1 class1 f cam timestamp s).2).2) =
  _objects_in_rois
    (cls (execute object1 class1 f cam timestamp
            (execute object2 class2 f cam timestamp s).2).2).
Proof.
  rewrite (execute_recorded object2), (execute_recorded object1 class1 f cam
             timestamp (execute object2 class2 f cam timestamp s).2).
  destruct (execute_preserves object1 class1 f cam timestamp s) as (-> & _).
  destruct (execute_preserves object2 class2 f cam timestamp s) as (-> & _).
  rewrite !execute_recorded.
  destruct (region_of (centroid object1) _ _),
           (region_of (centroid object2) _ _); try done.
  apply recorded_commute.
Qed.

(** ** Construction, in general *)

Lemma truthy_ne v : truthy v = true ↔ v ≠ "".
Proof.
  unfold truthy. rewrite negb_true_iff. apply String.eqb_neq.
Qed.

(** X12: what [__init__] does with the environment.  It appends the
    regions and as many cleared presence maps to the class lists in every
    case; it raises exactly when [SLACK_CHANNEL] is unset, and then
    [KeyError]; otherwise the new engine has that channel, no count and no
    frame of its own, and a client exactly when [SLACK_TOKEN] is set to a
    string that is not empty. *)
Theorem RuleEngine_init_outcome rois dotenv c environ :
  let b := RuleEngine_init rois dotenv c environ in
  let env := load_dotenv dotenv environ in
  _rois b.1.2 = _rois c ++ (Polygon_of <$> rois) ∧
  _objects_in_rois b.1.2 =
    _objects_in_rois c ++ replicate (length rois) fresh_presence ∧
  _maximum_allowed_diff b.1.2 = _maximum_allowed_diff c ∧
  (b.1.1 = Raise (KeyError "SLACK_CHANNEL") ↔ env !! "SLACK_CHANNEL" = None) ∧
  ((∃ e, b.1.1 = Return e) ∨ b.1.1 = Raise (KeyError "SLACK_CHANNEL")) ∧
  (∀ e, b.1.1 = Return e →
     own_slack_channel e = env !! "SLACK_CHANNEL" ∧
     own_last_positive_frame e = None ∧ own_count e = None ∧
     (∀ t, own_slack_client e = Some {| token := t |} ↔
           env !! "SLACK_TOKEN" = Some t ∧ t ≠ "")).
Proof.
  intros b env. subst b env.
  rewrite RuleEngine_init_class.
  destruct (append_rois c rois) as (Hrois & Hobjs & Hthr).
  split_and!; [done..| | |].
  - symmetry. apply RuleEngine_init_raises.
  - unfold RuleEngine_init.
    destruct (load_dotenv dotenv environ !! "SLACK_CHANNEL"); simpl; eauto.
  - unfold RuleEngine_init.
    destruct (load_dotenv dotenv environ !! "SLACK_CHANNEL") as [ch|];
      simpl; [|done].
    intros e [= <-]. simpl. split_and!; [done..|]. intros t.
    destruct (load_dotenv dotenv environ !! "SLACK_TOKEN") as [t'|];
      [|split; [done|by intros [? _]]].
    destruct (truthy t') eqn:Ht.
    + apply truthy_ne in Ht. split.
      * by intros [= ->].
      * by intros [[= ->] _].
    + split; [done|]. intros [[= ->] Hne]. apply truthy_ne in Hne. congruence.
Qed.

(** X13: a constructor call that fails leaves its regions behind.  From
    the class as imported, a call without [SLACK_CHANNEL] raises; a second
    call on the same regions, with the channel set, then builds an engine
    that reads every region twice. *)
Theorem retry_after_failed_construction rois dotenv1 environ1 dotenv2 environ2
    ch :
  load_dotenv dotenv1 environ1 !! "SLACK_CHANNEL" = None →
  load_dotenv dotenv2 environ2 !! "SLACK_CHANNEL" = Some ch →
  let b1 := RuleEngine_init rois dotenv1 RuleEngine_class environ1 in
  let b2 := RuleEngine_init rois dotenv2 b1.1.2 environ2 in
  b1.1.1 = Raise (KeyError "SLACK_CHANNEL") ∧
  ∃ e, b2.1.1 = Return e ∧
    self_rois b2.1.2 e = (Polygon_of <$> rois) ++ (Polygon_of <$> rois) ∧
    length (self_objects_in_rois b2.1.2 e) = (2 * length rois)%nat ∧
    keys_exact b2.1.2.
Proof.
  intros Hnone Hch b1 b2. subst b1 b2.
  split; [by apply RuleEngine_init_raises|].
  destruct (RuleEngine_init_returns rois dotenv2
              (RuleEngine_init rois dotenv1 RuleEngine_class environ1).1.2
              environ2 ch Hch) as (e & He & _).
  exists e. split; [done|].
  unfold self_rois, self_objects_in_rois, keys_exact.
  rewrite !RuleEngine_init_class.
  destruct (append_rois (foldl append_roi RuleEngine_class rois) rois)
    as (-> & -> & _).
  destruct (append_rois RuleEngine_class rois) as (-> & -> & _). simpl.
  rewrite !length_app, !length_replicate, !length_fmap.
  split_and!; [done|lia|done|].
  apply Forall_app. split; apply Forall_forall;
    intros d [-> _]%elem_of_replicate; apply fresh_presence_dom.
Qed.

(** ** The gate between consecutive positive evaluations *)

(** X14: the answers of the gate along any series of calls.  The first
    answer compares the first frame number with the stored
    [_last_positive_frame]; every later answer compares a frame number with
    the one of the call just before it, whether that call was answered true
    or false, and with nothing else. *)
Theorem gate_answers_pairwise frames s :
  ∃ answers,
    (should_notify_all frames s).1 = Return answers ∧
    length answers = length frames ∧
    (∀ f, frames !! 0%nat = Some f →
       answers !! 0%nat =
         Some (bool_decide (slack_client s ≠ None) &&
               (_maximum_allowed_diff (cls s) <?
                  f - _last_positive_frame s))) ∧
    (∀ k g f, frames !! k = Some g → frames !! S k = Some f →
       answers !! S k =
         Some (bool_decide (slack_client s ≠ None) &&
               (_maximum_allowed_diff (cls s) <? f - g))).
Proof.
  revert s. induction frames as [|f0 rest IH]; intros s.
  { exists []. by split_and!. }
  destruct (IH (set_last_positive_frame f0 s))
    as (answers & Hrun & Hlen & Hfirst & Hnext).
  exists ((bool_decide (slack_client s ≠ None) &&
           (_maximum_allowed_diff (cls s) <? f0 - _last_positive_frame s))
          :: answers).
  split_and!.
  - simpl. run.
    destruct (should_notify_all rest (set_last_positive_frame f0 s))
      as [[bs|e] s'] eqn:Hrest; simpl in *; [|done].
    by injection Hrun as ->.
  - simpl. by rewrite Hlen.
  - by intros f [= ->].
  - intros [|k] g f Hg Hf; simpl in *.
    + injection Hg as ->. by apply Hfirst.
    + by apply Hnext.
Qed.

(** ** A notification that failed is not sent again *)

Lemma execute_positive object obj_class frame_num cam timestamp s :
  keys_cover (cls s) →
  (execute object obj_class frame_num cam timestamp s).1 ≠ Return (-1) →
  _last_positive_frame
    (execute object obj_class frame_num cam timestamp s).2 = frame_num ∧
  _count (execute object obj_class frame_num cam timestamp s).2 =
    _count s + 1.
Proof.
  intros Hinv. rewrite execute_region.
  destruct (region_of _ _ _) as [i|] eqn:Hregion; [|done].
  destruct (keys_cover_region _ _ _ Hinv Hregion) as (d & Hd & Hkeys).
  rewrite (execute_at_cases _ _ _ _ _ _ d Hd Hkeys).
  destruct (car_and_person _); [|done]. intros _.
  destruct (bool_decide _ && _); [|done]. by destruct (notify_result _).
Qed.

(** X15: once an evaluation at frame [f] was positive, whether its message
    was delivered, refused or never attempted, every evaluation at a frame
    within the threshold of [f] that follows it directly leaves Slack
    alone: a message that Slack refused is not handed over again while the
    occurrence goes on. *)
Theorem no_second_attempt object obj_class f cam_name timestamp s
    object' obj_class' f' cam_name' timestamp' :
  keys_cover (cls s) →
  (execute object obj_class f cam_name timestamp s).1 ≠ Return (-1) →
  f' - f ≤ _maximum_allowed_diff (cls s) →
  let s1 := (execute object obj_class f cam_name timestamp s).2 in
  slack (execute object' obj_class' f' cam_name' timestamp' s1).2 = slack s1 ∧
  ∃ r, (execute object' obj_class' f' cam_name' timestamp' s1).1 = Return r.
Proof.
  intros Hinv Hpositive Hgap s1.
  destruct (execute_positive _ _ _ _ _ _ Hinv Hpositive) as [Hlast _].
  pose proof (execute_keys_cover object obj_class f cam_name timestamp s Hinv)
    as Hinv1.
  destruct (execute_preserves object obj_class f cam_name timestamp s)
    as (_ & Hthr & _).
  fold s1 in Hlast, Hinv1, Hthr.
  rewrite execute_region.
  destruct (region_of _ _ _) as [i|] eqn:Hregion; [|eauto].
  destruct (keys_cover_region _ _ _ Hinv1 Hregion) as (d & Hd & Hkeys).
  rewrite (execute_at_closed _ _ _ _ _ _ d Hd Hkeys).
  - destruct (car_and_person _); eauto.
  - right. rewrite Hlast, Hthr. done.
Qed.

(** ** The key set of the presence maps *)

Lemma keys_kept_refl s : keys_kept s s.
Proof. intros j d Hd. by exists d. Qed.

Lemma keys_kept_trans s1 s2 s3 :
  keys_kept s1 s2 → keys_kept s2 s3 → keys_kept s1 s3.
Proof.
  intros H12 H23 j d Hd.
  destruct (H12 j d Hd) as (d2 & Hd2 & Hsub2).
  destruct (H23 j d2 Hd2) as (d3 & Hd3 & Hsub3).
  exists d3. split; [done|]. by etrans.
Qed.

Lemma execute_keys_kept object obj_class frame_num cam timestamp s :
  keys_kept s (execute object obj_class frame_num cam timestamp s).2.
Proof.
  intros j d Hd. rewrite execute_objects.
  destruct (region_of _ _ _) as [i|]; [|by exists d].
  destruct (_objects_in_rois (cls s) !! i) as [di|] eqn:Hdi; [|by exists d].
  destruct (decide (j = i)) as [->|Hne].
  - exists (<[obj_class := true]> di).
    rewrite list_lookup_insert_eq by (by eapply lookup_lt_Some).
    split; [done|]. assert (d = di) as -> by congruence.
    rewrite dom_insert_L. apply union_subseteq_r.
  - exists d. by rewrite list_lookup_insert_ne.
Qed.

Lemma append_rois_keys_cover c rois :
  keys_cover c → keys_cover (foldl append_roi c rois).
Proof.
  intros [Hlen Hkeys]. destruct (append_rois c rois) as (Hr & Ho & _).
  unfold keys_cover. rewrite Hr, Ho.
  rewrite !length_app, length_replicate, length_fmap, Hlen.
  split; [done|]. apply Forall_app. split; [done|].
  apply Forall_forall. intros d [-> _]%elem_of_replicate.
  by rewrite fresh_presence_dom.
Qed.

Lemma append_rois_keys_exact c rois :
  keys_exact c → keys_exact (foldl append_roi c rois).
Proof.
  intros [Hlen Hkeys]. destruct (append_rois c rois) as (Hr & Ho & _).
  unfold keys_exact. rewrite Hr, Ho.
  rewrite !length_app, length_replicate, length_fmap, Hlen.
  split; [done|]. apply Forall_app. split; [done|].
  apply Forall_forall. intros d [-> _]%elem_of_replicate.
  apply fresh_presence_dom.
Qed.

(** C5, as the code has it.  Every presence map always has at least the
    keys "car", "person" and "truck".  A map has exactly those keys when a
    construction appends it (the maps already in the class list are left as
    they are, so the whole list has exactly those keys when it had before,
    as from the class as imported), and every map has exactly those keys
    after a reset.  Recording a class is a plain dictionary store: it is
    done whatever the class, a class outside the three becomes a further
    key of the map of that region, and a negative rule then returns [-1] as
    ever.  No evaluation removes a key, neither alone nor along the
    detections of a frame: a further key stays until the next reset. *)
Theorem presence_keys_cover object obj_class frame_num cam_name timestamp s
    dets alerts rois dotenv environ c :
  keys_cover (cls s) →
  let r := execute object obj_class frame_num cam_name timestamp s in
  keys_cover (cls r.2) ∧
  (∀ i d, region_of (centroid object) (_rois (cls s)) 0 = Some i →
     _objects_in_rois (cls s) !! i = Some d →
     _objects_in_rois (cls r.2) !! i = Some (<[obj_class := true]> d) ∧
     dom (<[obj_class := true]> d) = {[obj_class]} ∪ dom d ∧
     (car_and_person (<[obj_class := true]> d) = false →
      r.1 = Return (-1))) ∧
  keys_kept s r.2 ∧
  keys_kept s
    (render_detections cam_name frame_num timestamp dets alerts s).2 ∧
  keys_exact (cls (reset_objects r.2).2) ∧
  (let c' := (RuleEngine_init rois dotenv c environ).1.2 in
   _objects_in_rois c' =
     _objects_in_rois c ++ replicate (length rois) fresh_presence ∧
   dom fresh_presence = tracked ∧
   (keys_cover c → keys_cover c') ∧
   (keys_exact c → keys_exact c')) ∧
  keys_exact (RuleEngine_init rois dotenv RuleEngine_class environ).1.2.
Proof.
  intros Hinv r. subst r. split_and!.
  - by apply execute_keys_cover.
  - intros i d Hregion Hd. split_and!.
    + rewrite execute_objects, Hregion, Hd.
      apply list_lookup_insert_eq. by eapply lookup_lt_Some.
    + by rewrite dom_insert_L.
    + intros Hrule. rewrite execute_region, Hregion.
      destruct (keys_cover_region _ _ _ Hinv Hregion) as (d' & Hd' & Hkeys).
      assert (d' = d) as -> by congruence.
      by rewrite (execute_at_cases _ _ _ _ _ _ d Hd Hkeys), Hrule.
  - apply execute_keys_kept.
  - apply (render_detections_rule (λ _, True) keys_kept); [| | |done].
    + apply keys_kept_refl.
    + apply keys_kept_trans.
    + intros o cl s' _. split; [done|]. apply execute_keys_kept.
  - apply (execute_keys_cover object obj_class frame_num cam_name timestamp)
      in Hinv as [Hlen _].
    rewrite reset_objects_eq. unfold keys_exact. simpl.
    rewrite length_replicate. split; [done|].
    apply Forall_forall. intros d [-> _]%elem_of_replicate.
    apply fresh_presence_dom.
  - simpl. rewrite RuleEngine_init_class.
    destruct (append_rois c rois) as (_ & Ho & _).
    split_and!; [done|apply fresh_presence_dom| |].
    + apply append_rois_keys_cover.
    + apply append_rois_keys_exact.
  - rewrite RuleEngine_init_class. by apply append_rois_keys_exact.
Qed.

(** ** One notification per frame number, in a stream that never goes back *)

Lemma render_app cam frames1 frames2 s :
  render cam (frames1 ++ frames2) s =
  match render cam frames1 s with
  | (Return _, s1) => render cam frames2 s1
  | (Raise e, s1) => (Raise e, s1)
  end.
Proof.
  revert s. induction frames1 as [|frame rest IH]; intros s; [done|].
  simpl. unfold mbind, M_bind.
  destruct (render_frame cam frame s) as [[alerts|e] s1]; [|done].
  apply IH.
Qed.

Lemma render_threshold cam frames s :
  _maximum_allowed_diff (cls (render cam frames s).2) =
  _maximum_allowed_diff (cls s).
Proof.
  apply (render_rule (λ _, True)
           (λ s s', _maximum_allowed_diff (cls s') =
                    _maximum_allowed_diff (cls s)) cam frames); [done| | | |done].
  - intros s1 s2 s3. congruence.
  - intros frame object obj_class s' _ _. split; [done|].
    by destruct (execute_preserves object obj_class (frame_num_of frame) cam
                   (timestamp_of frame) s') as (_ & ? & _).
  - intros s' _. by rewrite reset_objects_eq.
Qed.

(** Batches numbered [f] that follow one another, after whatever came
    before them, are handed at most one message. *)
Lemma render_same_number cam f before same s :
  0 ≤ _maximum_allowed_diff (cls s) →
  Forall (λ frame, frame_num_of frame = f) same →
  ∃ new, posted (slack (render cam (before ++ same) s).2) =
           posted (slack (render cam before s).2) ++ new ∧
         (length new ≤ 1)%nat.
Proof.
  intros Hthr Hsame. rewrite render_app.
  pose proof (render_threshold cam before s) as Hthr1.
  destruct (render cam before s) as [[[]|e] s1]; simpl in *.
  - assert (Hthr' : 0 ≤ _maximum_allowed_diff (cls s1)) by lia.
    destruct (render_gate_step cam f same s1 Hthr' Hsame)
      as [_ [[Hp _]|(_ & _ & m & Hp)]].
    + exists []. rewrite Hp, app_nil_r. split; [done|simpl; lia].
    + exists [m]. split; [done|simpl; lia].
  - exists []. rewrite app_nil_r. split; [done|simpl; lia].
Qed.

(** In a stream whose frame numbers never decrease, the batches numbered
    [f] follow one another. *)
Lemma sorted_frames_split f (frames : list Frame) :
  StronglySorted Z.le (frame_num_of <$> frames) →
  ∃ before same after,
    frames = before ++ same ++ after ∧
    Forall (λ frame, frame_num_of frame < f) before ∧
    Forall (λ frame, frame_num_of frame = f) same ∧
    Forall (λ frame, f < frame_num_of frame) after.
Proof.
  induction frames as [|x rest IH]; simpl.
  { intros _. exists [], [], []. by split_and!. }
  intros [Hle Hsorted]%StronglySorted_cons.
  destruct (IH Hsorted) as (before & same & after & -> & Hb & Hs & Ha).
  rewrite Forall_fmap in Hle.
  destruct (Z.lt_trichotomy (frame_num_of x) f) as [Hlt|[Heq|Hgt]].
  - exists (x :: before), same, after. split_and!; try done.
    by constructor.
  - destruct before as [|y before].
    + exists [], (x :: same), after. split_and!; try done. by constructor.
    + apply Forall_cons in Hb as [Hy _].
      apply Forall_cons in Hle as [Hxy _]. simpl in Hxy. lia.
  - destruct before as [|y before].
    + destruct same as [|y same].
      * exists [], [], (x :: after). split_and!; try done. by constructor.
      * apply Forall_cons in Hs as [Hy _].
        apply Forall_cons in Hle as [Hxy _]. simpl in Hxy. lia.
    + apply Forall_cons in Hb as [Hy _].
      apply Forall_cons in Hle as [Hxy _]. simpl in Hxy. lia.
Qed.

(** C10, as the code has it: with a threshold that is not negative, a call
    [should_notify(f)] that directly follows a call [should_notify(f)]
    returns false, since the gate then stands at [f]; so does any later
    call for [f] in a series of calls whose frame numbers never decrease.
    Hence batches numbered [f] that are processed one after the other,
    after whatever came before them, are handed at most one message to the
    Slack client, however many of their detections evaluate positive; in a
    stream whose frame numbers never decrease these are all the batches
    numbered [f]. *)
Theorem one_notification_per_frame_number s f cam_name calls_before
    calls_between frames_before frames_same frames :
  0 ≤ _maximum_allowed_diff (cls s) →
  StronglySorted Z.le (calls_before ++ f :: calls_between ++ [f]) →
  Forall (λ frame, frame_num_of frame = f) frames_same →
  StronglySorted Z.le (frame_num_of <$> frames) →
  _last_positive_frame (should_notify f s).2 = f ∧
  (should_notify f (should_notify f s).2).1 = Return false ∧
  (∃ answers, length answers = length (calls_before ++ f :: calls_between) ∧
     (should_notify_all (calls_before ++ f :: calls_between ++ [f]) s).1 =
       Return (answers ++ [false])) ∧
  (∃ new, posted (slack (render cam_name (frames_before ++ frames_same)
                           s).2) =
            posted (slack (render cam_name frames_before s).2) ++ new ∧
          (length new ≤ 1)%nat) ∧
  ∃ before same after,
    frames = before ++ same ++ after ∧
    Forall (λ frame, frame_num_of frame < f) before ∧
    Forall (λ frame, frame_num_of frame = f) same ∧
    Forall (λ frame, f < frame_num_of frame) after ∧
    ∃ new, posted (slack (render cam_name (before ++ same) s).2) =
             posted (slack (render cam_name before s).2) ++ new ∧
           (length new ≤ 1)%nat.
Proof.
  intros Hthr Hcalls Hsame Hframes. split_and!.
  - done.
  - rewrite !should_notify_eq. simpl. f_equal.
    apply andb_false_intro2, Z.ltb_ge.
    unfold _last_positive_frame. simpl. lia.
  - destruct (should_notify_all_snoc (calls_before ++ f :: calls_between) f s)
      as (bs & Hlen & Hbs).
    exists bs. split; [done|].
    rewrite <- app_assoc in Hbs. simpl in Hbs. rewrite Hbs.
    apply StronglySorted_app_1_r, last_between in Hcalls.
    rewrite last_app, Hcalls. simpl. do 3 f_equal.
    apply andb_false_intro2, Z.ltb_ge. lia.
  - by apply (render_same_number cam_name f).
  - destruct (sorted_frames_split f frames Hframes)
      as (before & same & after & Heq & Hb & Hs & Ha).
    exists before, same, after. split_and!; try done.
    by apply (render_same_number cam_name f).
Qed.

End Properties.

(** * The properties at concrete inputs *)

Lemma class1_keys_cover script : keys_cover (cls (Example.start script)).
Proof.
  split; [done|]. simpl.
  repeat constructor; by rewrite fresh_presence_dom.
Qed.

Lemma car_seen_keys_cover script : keys_cover (cls (Example.car_seen script)).
Proof.
  split; [done|]. simpl. repeat constructor.
  - rewrite dom_insert_L, fresh_presence_dom. by apply union_subseteq_r'.
  - by rewrite fresh_presence_dom.
Qed.

(** C1 at the frames 10, 11, 12, 20 of the specification. *)
Lemma should_notify_gate_example :
  slack_client (Example.start []) ≠ None ∧
  (should_notify_all [10; 11; 12; 20] (Example.start [])).1 =
    Return [true; false; false; true].
Proof.
  assert (Hc : slack_client (Example.start []) ≠ None) by done.
  split; [exact Hc|].
  destruct (should_notify_gate (Example.start []) 10)
    as (_ & _ & _ & _ & Hframes).
  apply Hframes; [exact Hc|reflexivity..].
Defined.

(** Without a client the gate answers false and still moves. *)
Example should_notify_without_client :
  should_notify 10 Example.start_off =
  (Return false, set_last_positive_frame 10 Example.start_off).
Proof. reflexivity. Qed.

(** Calls for a frame number that are separated by a call for a smaller
    one do not see the gate at that number: the order of the stream
    matters to C10. *)
Example gate_reopens_out_of_order :
  (should_notify_all [10; 5; 10] (Example.start [])).1 =
  Return [true; false; true].
Proof. reflexivity. Qed.

(** C2 at a person seen in region 0 where a car was seen before: positive,
    counted once, region 0 returned. *)
Lemma execute_rule_positive_example :
  keys_cover (cls (Example.car_seen [])) ∧
  region_of (centroid Example.box_a) (_rois (cls (Example.car_seen []))) 0 =
    Some 0%nat ∧
  _count (execute Example.box_a "person" 5 "cam" 500
            (Example.car_seen [])).2 = 1 ∧
  (execute Example.box_a "person" 5 "cam" 500 (Example.car_seen [])).1 =
    Return 0.
Proof.
  pose proof (car_seen_keys_cover []) as Hinv.
  assert (Hregion : region_of (centroid Example.box_a)
            (_rois (cls (Example.car_seen []))) 0 = Some 0%nat) by reflexivity.
  split; [exact Hinv|]. split; [exact Hregion|].
  destruct (execute_rule_positive Example.box_a "person" 5 "cam" 500
              (Example.car_seen []) 0 Hinv Hregion)
    as (d & Hd & _ & _ & _ & Hpositive & _).
  injection Hd as <-.
  destruct Hpositive as (Hcount & _ & [Hret|(e & _ & Hraise)]).
  - split; reflexivity.
  - split; [exact Hcount|exact Hret].
  - discriminate Hraise.
Defined.

(** The rule on a lone car, and on a second car after car and person. *)
Example execute_car_only :
  (execute Example.box_a "car" 5 "cam" 500 (Example.start [])).1 = Return (-1) ∧
  _count (execute Example.box_a "car" 5 "cam" 500 (Example.start [])).2 = 0.
Proof. split; reflexivity. Qed.

Example execute_retriggers :
  let s1 := (execute Example.box_a "person" 5 "cam" 500
               (Example.car_seen [])).2 in
  (execute Example.box_b "car" 5 "cam" 500 s1).1 = Return 0 ∧
  _count (execute Example.box_b "car" 5 "cam" 500 s1).2 = 2 ∧
  posted (slack (execute Example.box_b "car" 5 "cam" 500 s1).2) =
    [Example.alert 500].
Proof. split_and!; reflexivity. Qed.

(** C3 at a centroid in the overlap of both regions. *)
Lemma execute_overlap_example :
  intersects (Rect.rect 0 0 10 10) (centroid Example.box_overlap) = true ∧
  intersects (Rect.rect 5 5 15 15) (centroid Example.box_overlap) = true ∧
  region_of (centroid Example.box_overlap)
            (_rois (cls (Example.start []))) 0 = Some 0%nat ∧
  _objects_in_rois
    (cls (execute Example.box_overlap "car" 5 "cam" 500
            (Example.start [])).2) !! 0%nat =
    Some (<["car" := true]> fresh_presence) ∧
  _objects_in_rois
    (cls (execute Example.box_overlap "car" 5 "cam" 500
            (Example.start [])).2) !! 1%nat = Some fresh_presence.
Proof.
  split; [reflexivity|]. split; [reflexivity|].
  destruct (execute_marks_first_region_only Example.box_overlap "car" 5
              "cam" 500 (Example.start [])) as [_ Hoverlap].
  exact (Hoverlap (Rect.rect 0 0 10 10) (Rect.rect 5 5 15 15)
           eq_refl eq_refl eq_refl eq_refl).
Defined.

(** C7 at a bounding box far from both regions. *)
Lemma execute_outside_regions_example :
  Forall (λ roi, intersects roi (centroid Example.box_outside) = false)
         (_rois (cls (Example.car_seen []))) ∧
  execute Example.box_outside "person" 5 "cam" 500 (Example.car_seen []) =
    (Return (-1), Example.car_seen []).
Proof.
  assert (Hout : Forall
    (λ roi, intersects roi (centroid Example.box_outside) = false)
    (_rois (cls (Example.car_seen [])))) by (repeat constructor).
  split; [exact Hout|].
  exact (execute_outside_regions Example.box_outside "person" 5 "cam" 500
           (Example.car_seen []) Hout).
Defined.

(** C4: with neither [SLACK_TOKEN] nor [SLACK_CHANNEL] in the environment
    or the [.env] file, [__init__] raises [KeyError] on [SLACK_CHANNEL],
    after it appended the regions. *)
Theorem init_without_notifier_configuration_raises :
  (RuleEngine_init Example.rois ∅ RuleEngine_class Example.environ_none).1.1 =
    Raise (KeyError "SLACK_CHANNEL") ∧
  length (_rois (RuleEngine_init Example.rois ∅ RuleEngine_class
                   Example.environ_none).1.2) = 2%nat.
Proof. split; reflexivity. Qed.

(** The other three configurations: a channel without a token builds an
    engine without client, a token without a channel raises, both build an
    engine with client. *)
Example init_channel_only :
  (RuleEngine_init Example.rois ∅ RuleEngine_class
     Example.environ_channel_only).1.1 = Return Example.engine_off.
Proof. reflexivity. Qed.

Example init_token_only :
  (RuleEngine_init Example.rois ∅ RuleEngine_class
     Example.environ_token_only).1.1 = Raise (KeyError "SLACK_CHANNEL").
Proof. reflexivity. Qed.

Example init_full :
  (RuleEngine_init Example.rois ∅ RuleEngine_class Example.environ_full).1 =
  (Return Example.engine_on, Example.class1).
Proof. vm_compute. reflexivity. Qed.

(** C5 as stated fails: a detection of class "other" in region 0 is
    recorded without any exception, and the presence map of region 0 then
    has the four keys "car", "person", "truck" and "other". *)
Lemma unknown_class_extends_presence_map :
  (execute Example.box_a "other" 5 "cam" 500 (Example.start [])).1 =
    Return (-1) ∧
  _objects_in_rois
    (cls (execute Example.box_a "other" 5 "cam" 500 (Example.start [])).2)
    !! 0%nat = Some (<["other" := true]> fresh_presence) ∧
  dom (<["other" := true]> fresh_presence) = {["other"]} ∪ tracked ∧
  ("other" ∉ tracked) ∧
  (render_detections "cam" 5 500
     [ {| det_class := "other"; det_object := Example.box_a |} ] ∅
     (Example.start [])).1 = Return {[ -1 ]}.
Proof.
  split_and!.
  - reflexivity.
  - reflexivity.
  - by rewrite dom_insert_L, fresh_presence_dom.
  - unfold tracked. rewrite !not_elem_of_union, !not_elem_of_singleton. done.
  - vm_compute. reflexivity.
Qed.

(** C5 as amended, at that detection: the key "other" is recorded, stays
    while a car is recorded after it, and is gone after the reset; an
    engine built on the class in between appends one map with the three
    keys and leaves the extended map as it is. *)
Lemma presence_keys_cover_example :
  keys_cover (cls (Example.start [])) ∧
  keys_cover
    (cls (execute Example.box_a "other" 5 "cam" 500 (Example.start [])).2) ∧
  _objects_in_rois
    (cls (execute Example.box_a "other" 5 "cam" 500 (Example.start [])).2)
    !! 0%nat = Some (<["other" := true]> fresh_presence) ∧
  (execute Example.box_a "other" 5 "cam" 500 (Example.start [])).1 =
    Return (-1) ∧
  keys_kept (Example.start [])
    (render_detections "cam" 5 500
       [ {| det_class := "other"; det_object := Example.box_a |};
         {| det_class := "car"; det_object := Example.box_b |} ] ∅
       (Example.start [])).2 ∧
  keys_exact
    (cls (reset_objects
            (execute Example.box_a "other" 5 "cam" 500
               (Example.start [])).2).2) ∧
  _objects_in_rois
    (RuleEngine_init [Rect.rect 20 20 30 30] ∅
       (cls (execute Example.box_a "other" 5 "cam" 500
               (Example.start [])).2) Example.environ_full).1.2 =
  _objects_in_rois
    (cls (execute Example.box_a "other" 5 "cam" 500 (Example.start [])).2)
    ++ replicate 1 fresh_presence.
Proof.
  pose proof (class1_keys_cover []) as Hinv.
  split; [exact Hinv|].
  destruct (presence_keys_cover Example.box_a "other" 5 "cam" 500
              (Example.start [])
              [ {| det_class := "other"; det_object := Example.box_a |};
                {| det_class := "car"; det_object := Example.box_b |} ] ∅
              [Rect.rect 20 20 30 30] ∅ Example.environ_full
              (cls (execute Example.box_a "other" 5 "cam" 500
                      (Example.start [])).2) Hinv)
    as (Hcover & Hmark & _ & Hkept & Hreset & (Happend & _) & _).
  destruct (Hmark 0%nat fresh_presence eq_refl eq_refl)
    as (Hstored & _ & Hnegative).
  split; [exact Hcover|]. split; [exact Hstored|].
  split; [exact (Hnegative eq_refl)|]. split; [exact Hkept|].
  split; [exact Hreset|exact Happend].
Defined.


(** C8 as stated fails: the client raises an exception that is not a
    [SlackApiError] while frame 5 is processed.  [render] ends with that
    exception: frame 6 is never evaluated and the presence maps are not
    reset.  The count and the gate update of frame 5 stay. *)
Lemma uncaught_notifier_exception_ends_render :
  (render "cam" [Example.frame5; Example.frame6]
     (Example.start [Some (OtherError "URLError")])).1 =
    Raise (OtherError "URLError") ∧
  (execute Example.box_b "person" 5 "cam" 500
     (Example.car_seen [Some (OtherError "URLError")])).1 =
    Raise (OtherError "URLError") ∧
  (let s' := (render "cam" [Example.frame5; Example.frame6]
                (Example.start [Some (OtherError "URLError")])).2 in
   _count s' = 1 ∧ _last_positive_frame s' = 5 ∧
   posted (slack s') = [Example.alert 500] ∧
   _objects_in_rois (cls s') !! 0%nat =
     Some (<["person" := true]> (<["car" := true]> fresh_presence))) ∧
  (render "cam" [Example.frame5; Example.frame6] (Example.start [])).1 =
    Return () ∧
  _last_positive_frame
    (render "cam" [Example.frame5; Example.frame6] (Example.start [])).2 = 5 ∧
  (render "cam" [Example.frame5; Example.frame6]
     (Example.start [Some (SlackApiError None)])).1 = Raise AssertionError.
Proof.
  split_and!; try (vm_compute; reflexivity).
  cbv zeta. split_and!; vm_compute; reflexivity.
Qed.

(** C8 as amended, at a [SlackApiError] that names its error. *)
Lemma notify_failure_recovered_example :
  slack_client
    (Example.car_seen [Some (SlackApiError (Some "channel_not_found"))])
    ≠ None ∧
  execute Example.box_b "person" 5 "cam" 500
    (Example.car_seen [Some (SlackApiError (Some "channel_not_found"))]) =
  (Return 0,
   handed 500 "cam"
     (counted 5
        (marked 0 "person" (<["car" := true]> fresh_presence)
           (Example.car_seen
              [Some (SlackApiError (Some "channel_not_found"))])))) ∧
  _count
    (execute Example.box_b "person" 5 "cam" 500
       (Example.car_seen
          [Some (SlackApiError (Some "channel_not_found"))])).2 = 1 ∧
  (render "cam" [Example.frame5; Example.frame6]
     (Example.start [Some (SlackApiError (Some "channel_not_found"))])).1 =
    Return ().
Proof.
  assert (Hc : slack_client
    (Example.car_seen [Some (SlackApiError (Some "channel_not_found"))])
    ≠ None) by done.
  split; [exact Hc|].
  destruct (notify_failure_recovered Example.box_b "person" 5 "cam" 500
              (Example.car_seen
                 [Some (SlackApiError (Some "channel_not_found"))])
              0 (<["car" := true]> fresh_presence)
              eq_refl eq_refl
              (Forall_inv (proj2 (car_seen_keys_cover
                 [Some (SlackApiError (Some "channel_not_found"))])))
              eq_refl Hc eq_refl)
    as (Hstate & _ & Hcount & _ & Hrecover).
  destruct (Hrecover (Some "channel_not_found") eq_refl eq_refl)
    as [Hrun _].
  split; [exact Hrun|]. split; [|vm_compute; reflexivity].
  rewrite Hstate. exact Hcount.
Defined.

(** C9 at two constructor calls, with two regions and then one. *)
Lemma constructors_share_regions_example :
  load_dotenv ∅ Example.environ_full !! "SLACK_CHANNEL" = Some "alerts" ∧
  ∃ e1 e2,
    (RuleEngine_init Example.rois ∅ RuleEngine_class
       Example.environ_full).1.1 = Return e1 ∧
    (RuleEngine_init [Rect.rect 20 20 30 30] ∅
       (RuleEngine_init Example.rois ∅ RuleEngine_class
          Example.environ_full).1.2
       (RuleEngine_init Example.rois ∅ RuleEngine_class
          Example.environ_full).2).1.1 = Return e2 ∧
    length (self_rois
      (RuleEngine_init [Rect.rect 20 20 30 30] ∅
         (RuleEngine_init Example.rois ∅ RuleEngine_class
            Example.environ_full).1.2
         (RuleEngine_init Example.rois ∅ RuleEngine_class
            Example.environ_full).2).1.2 e1) = 3%nat ∧
    length (self_rois
      (RuleEngine_init [Rect.rect 20 20 30 30] ∅
         (RuleEngine_init Example.rois ∅ RuleEngine_class
            Example.environ_full).1.2
         (RuleEngine_init Example.rois ∅ RuleEngine_class
            Example.environ_full).2).1.2 e2) = 3%nat.
Proof.
  assert (Hch : load_dotenv ∅ Example.environ_full !! "SLACK_CHANNEL" =
                Some "alerts") by reflexivity.
  split; [exact Hch|].
  destruct (constructors_share_regions Example.rois [Rect.rect 20 20 30 30]
              ∅ Example.environ_full "alerts" Hch)
    as (e1 & e2 & He1 & He2 & _ & _ & _ & Hlen1 & Hlen2 & _).
  exists e1, e2. split; [exact He1|]. split; [exact He2|].
  split; [exact Hlen1|exact Hlen2].
Defined.

(** C10 as stated fails: the gate looks at the frame number of the call
    before only.  Calls for the frames 10, 5, 10 are answered true, false,
    true, and the event loop run over three batches numbered 10, 5, 10,
    each with a car and a person in region 0, hands two messages to Slack
    for frame number 10. *)
Lemma out_of_order_frames_notify_twice :
  (should_notify_all [10; 5; 10] (Example.start [])).1 =
    Return [true; false; true] ∧
  frame_num_of <$> [Example.frame10; Example.frame5; Example.frame10_again] =
    [10; 5; 10] ∧
  (render "cam" [Example.frame10; Example.frame5; Example.frame10_again]
     (Example.start [])).1 = Return () ∧
  posted (slack (render "cam"
                   [Example.frame10; Example.frame5; Example.frame10_again]
                   (Example.start [])).2) =
    [Example.alert (timestamp_of Example.frame10);
     Example.alert (timestamp_of Example.frame10_again)].
Proof. split_and!; vm_compute; reflexivity. Qed.

(** C10 as amended, at frame number 10: calls for the frames 5, 10, 10, 10,
    and the two batches numbered 10 after a batch numbered 5. *)
Lemma one_notification_per_frame_number_example :
  0 ≤ _maximum_allowed_diff (cls (Example.start [])) ∧
  StronglySorted Z.le ([5] ++ 10 :: [10] ++ [10]) ∧
  Forall (λ frame, frame_num_of frame = 10)
         [Example.frame10; Example.frame10_again] ∧
  StronglySorted Z.le
    (frame_num_of <$>
       [Example.frame5; Example.frame10; Example.frame10_again]) ∧
  (should_notify 10 (should_notify 10 (Example.start [])).2).1 =
    Return false ∧
  (∃ answers, length answers = 3%nat ∧
     (should_notify_all [5; 10; 10; 10] (Example.start [])).1 =
       Return (answers ++ [false])) ∧
  (∃ new,
     posted (slack (render "cam"
                      ([Example.frame5] ++
                       [Example.frame10; Example.frame10_again])
                      (Example.start [])).2) =
       posted (slack (render "cam" [Example.frame5]
                        (Example.start [])).2) ++ new ∧
     (length new ≤ 1)%nat) ∧
  ∃ before same after,
    [Example.frame5; Example.frame10; Example.frame10_again] =
      before ++ same ++ after ∧
    Forall (λ frame, frame_num_of frame < 10) before ∧
    Forall (λ frame, frame_num_of frame = 10) same ∧
    Forall (λ frame, 10 < frame_num_of frame) after ∧
    ∃ new, posted (slack (render "cam" (before ++ same)
                            (Example.start [])).2) =
             posted (slack (render "cam" before (Example.start [])).2)
             ++ new ∧
           (length new ≤ 1)%nat.
Proof.
  assert (Hthr : 0 ≤ _maximum_allowed_diff (cls (Example.start [])))
    by (simpl; lia).
  assert (Hcalls : StronglySorted Z.le ([5] ++ 10 :: [10] ++ [10]))
    by (repeat constructor; lia).
  assert (Hsame : Forall (λ frame, frame_num_of frame = 10)
                    [Example.frame10; Example.frame10_again])
    by (repeat constructor).
  assert (Hframes : StronglySorted Z.le
            (frame_num_of <$>
               [Example.frame5; Example.frame10; Example.frame10_again]))
    by (repeat constructor; simpl; lia).
  split; [exact Hthr|]. split; [exact Hcalls|]. split; [exact Hsame|].
  split; [exact Hframes|].
  destruct (one_notification_per_frame_number (Example.start []) 10 "cam"
              [5] [10] [Example.frame5]
              [Example.frame10; Example.frame10_again]
              [Example.frame5; Example.frame10; Example.frame10_again]
              Hthr Hcalls Hsame Hframes)
    as (_ & Hagain & Hlater & Hposted & Hstream).
  split; [exact Hagain|]. split; [exact Hlater|].
  split; [exact Hposted|exact Hstream].
Defined.

(** Two batches numbered 5: three positive evaluations, one message. *)
Example render_counts_every_positive :
  _count (render "cam" [Example.frame5; Example.frame5_again]
            (Example.start [])).2 = 3 ∧
  posted (slack (render "cam" [Example.frame5; Example.frame5_again]
                   (Example.start [])).2) = [Example.alert 500].
Proof. split; vm_compute; reflexivity. Qed.

(** * The further properties at concrete inputs *)

(** X1 on a new engine: an occurrence that starts in frame 1 and goes on
    through frames 2, 3, 4 is never notified. *)
Lemma close_frames_keep_gate_shut_example :
  close_frames 1 0 [1; 2; 3; 4] ∧
  (should_notify_all [1; 2; 3; 4] (Example.start [])).1 =
    Return [false; false; false; false].
Proof.
  assert (Hclose : close_frames
            (_maximum_allowed_diff (cls (Example.start [])))
            (_last_positive_frame (Example.start [])) [1; 2; 3; 4])
    by (unfold _last_positive_frame; simpl; lia).
  split; [exact Hclose|].
  exact (proj1 (close_frames_keep_gate_shut (Example.start []) [1; 2; 3; 4]
                  Hclose)).
Defined.

(** X2 at a person joining a car in frame 1 of a new engine. *)
Lemma execute_without_notification_example :
  keys_cover (cls (Example.car_seen [])) ∧
  1 - _last_positive_frame (Example.car_seen []) ≤
    _maximum_allowed_diff (cls (Example.car_seen [])) ∧
  slack (execute Example.box_b "person" 1 "cam" 100
           (Example.car_seen [])).2 = slack (Example.car_seen []) ∧
  ∃ r, (execute Example.box_b "person" 1 "cam" 100
          (Example.car_seen [])).1 = Return r.
Proof.
  pose proof (car_seen_keys_cover []) as Hinv.
  assert (Hgap : 1 - _last_positive_frame (Example.car_seen []) ≤
                 _maximum_allowed_diff (cls (Example.car_seen [])))
    by (vm_compute; discriminate).
  split; [exact Hinv|]. split; [exact Hgap|].
  exact (execute_without_notification Example.box_b "person" 1 "cam" 100
           (Example.car_seen []) Hinv (or_intror Hgap)).
Defined.

(** X3 at frames 5 and 6. *)
Lemma render_keeps_configuration_example :
  keys_cover (cls (Example.start [])) ∧
  keys_cover
    (cls (render "cam" [Example.frame5; Example.frame6]
            (Example.start [])).2) ∧
  _rois (cls (render "cam" [Example.frame5; Example.frame6]
                (Example.start [])).2) = Example.rois.
Proof.
  pose proof (class1_keys_cover []) as Hinv.
  split; [exact Hinv|].
  destruct (render_keeps_configuration "cam"
              [Example.frame5; Example.frame6] (Example.start []) Hinv)
    as (Hinv' & Hrois & _).
  split; [exact Hinv'|exact Hrois].
Defined.

(** X4 at frames 5 and 6. *)
Lemma render_posts_counted_alerts_example :
  keys_cover (cls (Example.start [])) ∧
  ∃ new,
    posted (slack (render "cam" [Example.frame5; Example.frame6]
                     (Example.start [])).2) = [] ++ new ∧
    0 + Z.of_nat (length new) ≤
      _count (render "cam" [Example.frame5; Example.frame6]
                (Example.start [])).2 ∧
    Forall (λ m, msg_channel m = "alerts" ∧
                 msg_rule_name m = "Car and Person" ∧
                 msg_cam_name m = "cam" ∧
                 ∃ frame, frame ∈ [Example.frame5; Example.frame6] ∧
                          msg_timestamp m = timestamp_of frame) new.
Proof.
  pose proof (class1_keys_cover []) as Hinv.
  split; [exact Hinv|].
  exact (render_posts_counted_alerts "cam" [Example.frame5; Example.frame6]
           (Example.start []) Hinv).
Defined.

(** X6 at an engine built without token. *)
Lemma render_without_client_example :
  keys_cover (cls Example.start_off) ∧
  slack_client Example.start_off = None ∧
  slack (render "cam" [Example.frame5; Example.frame6]
           Example.start_off).2 = slack Example.start_off ∧
  _count (render "cam" [Example.frame5; Example.frame6]
            Example.start_off).2 = 1.
Proof.
  assert (Hinv : keys_cover (cls Example.start_off))
    by exact (class1_keys_cover []).
  split; [exact Hinv|]. split; [reflexivity|].
  split; [|vm_compute; reflexivity].
  exact (proj1 (render_without_client "cam"
                  [Example.frame5; Example.frame6] Example.start_off
                  Hinv eq_refl)).
Defined.

(** X8 at frame 5: region 0 is alerted, region 1 is not. *)
Lemma frame_alerts_car_and_person_example :
  _objects_in_rois (cls (Example.start [])) =
    replicate (length (_rois (cls (Example.start [])))) fresh_presence ∧
  render_frame "cam" Example.frame5 (Example.start []) =
    (Return Example.alerts5,
     (render_frame "cam" Example.frame5 (Example.start [])).2) ∧
  (0 ∈ Example.alerts5 ↔
     seen_in Example.rois (detections Example.frame5) 0 "car" ∧
     seen_in Example.rois (detections Example.frame5) 0 "person") ∧
  (1 ∈ Example.alerts5 ↔
     seen_in Example.rois (detections Example.frame5) 1 "car" ∧
     seen_in Example.rois (detections Example.frame5) 1 "person").
Proof.
  assert (Hclear : _objects_in_rois (cls (Example.start [])) =
    replicate (length (_rois (cls (Example.start [])))) fresh_presence)
    by reflexivity.
  assert (Hrun : render_frame "cam" Example.frame5 (Example.start []) =
    (Return Example.alerts5,
     (render_frame "cam" Example.frame5 (Example.start [])).2))
    by (vm_compute; reflexivity).
  split; [exact Hclear|]. split; [exact Hrun|].
  destruct (frame_alerts_car_and_person "cam" Example.frame5
              (Example.start []) _ _ Hclear Hrun) as (Halerts & _).
  split.
  - apply (Halerts 0%nat). simpl. lia.
  - apply (Halerts 1%nat). simpl. lia.
Defined.

(** X13 at the two regions of the examples. *)
Lemma retry_after_failed_construction_example :
  load_dotenv ∅ Example.environ_none !! "SLACK_CHANNEL" = None ∧
  load_dotenv ∅ Example.environ_full !! "SLACK_CHANNEL" = Some "alerts" ∧
  ∃ e,
    (RuleEngine_init Example.rois ∅
       (RuleEngine_init Example.rois ∅ RuleEngine_class
          Example.environ_none).1.2 Example.environ_full).1.1 = Return e ∧
    length (self_objects_in_rois
      (RuleEngine_init Example.rois ∅
         (RuleEngine_init Example.rois ∅ RuleEngine_class
            Example.environ_none).1.2 Example.environ_full).1.2 e) = 4%nat.
Proof.
  assert (Hnone : load_dotenv ∅ Example.environ_none !! "SLACK_CHANNEL" =
                  None) by reflexivity.
  assert (Hch : load_dotenv ∅ Example.environ_full !! "SLACK_CHANNEL" =
                Some "alerts") by reflexivity.
  split; [exact Hnone|]. split; [exact Hch|].
  destruct (retry_after_failed_construction Example.rois ∅
              Example.environ_none ∅ Example.environ_full "alerts" Hnone Hch)
    as (_ & e & He & _ & Hlen & _).
  exists e. split; [exact He|exact Hlen].
Defined.

(** X15 at a message Slack refused in frame 5, and a car in frame 6. *)
Lemma no_second_attempt_example :
  keys_cover (cls Example.refused) ∧
  (execute Example.box_b "person" 5 "cam" 500 Example.refused).1 =
    Return 0 ∧
  6 - 5 ≤ _maximum_allowed_diff (cls Example.refused) ∧
  slack (execute Example.box_a "car" 6 "cam" 600
           (execute Example.box_b "person" 5 "cam" 500
              Example.refused).2).2 =
  slack (execute Example.box_b "person" 5 "cam" 500 Example.refused).2 ∧
  (execute Example.box_a "car" 6 "cam" 600
     (execute Example.box_b "person" 5 "cam" 500 Example.refused).2).1 =
    Return 0.
Proof.
  assert (Hinv : keys_cover (cls Example.refused))
    by exact (car_seen_keys_cover _).
  assert (Hret : (execute Example.box_b "person" 5 "cam" 500
                    Example.refused).1 = Return 0) by reflexivity.
  assert (Hpositive : (execute Example.box_b "person" 5 "cam" 500
                         Example.refused).1 ≠ Return (-1))
    by (rewrite Hret; discriminate).
  assert (Hgap : 6 - 5 ≤ _maximum_allowed_diff (cls Example.refused))
    by (vm_compute; discriminate).
  split; [exact Hinv|]. split; [exact Hret|]. split; [exact Hgap|].
  destruct (no_second_attempt Example.box_b "person" 5 "cam" 500
              Example.refused Example.box_a "car" 6 "cam" 600
              Hinv Hpositive Hgap) as [Hslack _].
  split; [exact Hslack|reflexivity].
Defined.
